(** * Grocery manager: catalog, shopping list and archive ring

    A shallow embedding of [grocery_app.py] (class [GroceryManager]) and of
    the cart and catalog helpers of [app.py], with the properties of the
    shopping list, of the archive ring and of the budget report.

    Conventions of the embedding:
    - a Python [str] is a list of code points ([str]); literals go through
      [lit];
    - a Python [int] is a [Z]; a [float] (prices, budgets, totals) is an exact
      rational [Q], so rounding error is not modelled, only the arithmetic
      and the [ZeroDivisionError] of [/];
    - item dictionaries are records; the keys read with [d['k']] are fields,
      the ones read with [d.get('k')] are optional fields;
    - [self] is threaded explicitly: a method is a function from [state] to
      its return value and the new [state];
    - the debounce timer and the Hub upload do not touch the data fields; of
      the persistence layer only the [_save_pending] flag is kept. *)

From Stdlib Require Import ZArith QArith Qround String Ascii DecimalString Lia
  Lqa.
From stdpp Require Import base list sorting.

Open Scope Z_scope.

(** ** Strings *)

Definition char := N.
Definition str := list char.

Definition lit (s : string) : str :=
  map N_of_ascii (list_ascii_of_string s).

(** [str.isspace] on one code point (the white space table of CPython). *)
Definition isspace (c : char) : bool :=
  ((9 <=? c) && (c <=? 13) || (28 <=? c) && (c <=? 32) || (c =? 133)
   || (c =? 160) || (c =? 5760) || (8192 <=? c) && (c <=? 8202)
   || (c =? 8232) || (c =? 8233) || (c =? 8239) || (c =? 8287)
   || (c =? 12288))%N.

Fixpoint lstrip (s : str) : str :=
  match s with
  | c :: s' => if isspace c then lstrip s' else s
  | [] => []
  end.

Definition rstrip (s : str) : str := reverse (lstrip (reverse s)).

(** [s.strip()] *)
Definition strip (s : str) : str := rstrip (lstrip s).

(** [s.startswith(p)] *)
Fixpoint startswith (s p : str) : bool :=
  match p, s with
  | [], _ => true
  | c :: p', d :: s' => (c =? d)%N && startswith s' p'
  | _ :: _, [] => false
  end.

(** [s.split(sep)] for a one-character separator. *)
Fixpoint split (sep : char) (s : str) : list str :=
  match s with
  | [] => [[]]
  | c :: s' =>
      if (c =? sep)%N then [] :: split sep s'
      else match split sep s' with
           | w :: ws => (c :: w) :: ws
           | [] => [[c]]
           end
  end.

(** [s.replace(c, "")] for a one-character [c]. *)
Definition remove_char (c : char) (s : str) : str :=
  filter (λ d, d ≠ c) s.

(** Truth value of an optional string: [None] and [""] are false. *)
Definition truthy (o : option str) : bool :=
  match o with
  | Some (_ :: _) => true
  | _ => false
  end.

(** [a or b] on strings. *)
Definition str_or (o : option str) (default : str) : str :=
  match o with
  | Some (c :: s) => c :: s
  | _ => default
  end.

(** ** Numbers *)

(** Nearest integer, ties to even. *)
Definition round_half_even (x : Q) : Z :=
  let f := Qfloor x in
  match (x - inject_Z f ?= 1 # 2)%Q with
  | Lt => f
  | Gt => f + 1
  | Eq => if Z.even f then f else f + 1
  end.

(** [round(x, ndigits)] *)
Definition round (x : Q) (ndigits : nat) : Q :=
  let scale := inject_Z (10 ^ Z.of_nat ndigits) in
  Qred (inject_Z (round_half_even (x * scale)) / scale).

(** [a / b], which raises [ZeroDivisionError] when [b] is zero. *)
Definition truediv (a b : Q) : option Q :=
  if Qeq_bool b 0 then None else Some (a / b)%Q.

(** ** Data model *)

(** A catalog item: [{id, name, category, store, price, unit,
    default_quantity}]. *)
Record item := Item {
  item_id : str;
  item_name : str;
  item_category : str;
  item_store : option str;
  item_price : Q;
  item_unit : str;
  item_default_quantity : option Z
}.

(** A cart entry: a copy of a catalog item with a ['quantity'] key. *)
Record entry := Entry {
  entry_item : item;
  quantity : Z
}.

Definition entry_id (e : entry) : str := item_id (entry_item e).
Definition entry_store (e : entry) : option str := item_store (entry_item e).
Definition entry_price (e : entry) : Q := item_price (entry_item e).

(** An archive entry. *)
Record archive := Archive {
  arch_date : str;
  arch_date_label : str;
  arch_store : option str;
  arch_items : list entry;
  arch_item_count : nat;
  arch_total_cost : Q
}.

(** What [datetime.now(TIMEZONE)] renders to at the time of a call. *)
Record timestamp := Timestamp {
  isoformat : str;
  date_label : str
}.

(** The fields of [GroceryManager]. [stores] is a Python dict, kept in
    insertion order because the methods iterate over it. *)
Record state := State {
  stores : list (str * list item);
  shopping_list : list entry;
  budget : Q;
  archived_lists : list archive;
  save_pending : bool
}.

Definition max_archives : nat := 6.

Definition set_stores (v : list (str * list item)) (st : state) : state :=
  State v (shopping_list st) (budget st) (archived_lists st) (save_pending st).
Definition set_shopping_list (v : list entry) (st : state) : state :=
  State (stores st) v (budget st) (archived_lists st) (save_pending st).
Definition set_budget_field (v : Q) (st : state) : state :=
  State (stores st) (shopping_list st) v (archived_lists st) (save_pending st).
Definition set_archived_lists (v : list archive) (st : state) : state :=
  State (stores st) (shopping_list st) (budget st) v (save_pending st).
Definition set_save_pending (v : bool) (st : state) : state :=
  State (stores st) (shopping_list st) (budget st) (archived_lists st) v.

(** Messages returned to the caller, by format string. *)
Inductive message :=
  | NoItemsToArchive (store_name : option str)
  | ArchivedItems (count : nat) (store : str) (total : Q)
  | InvalidArchiveIndex
  | RestoredItems (count : nat) (label : str)
  | DeletedArchive (store label : str)
  | NoArchivesSelected
  | DeletedArchives (count : Z)
  | NoValidArchives
  | ItemNotFound
  | UpdatedQuantityTo (name : str) (q : Z)
  | AddedToCart (q : Z) (name : str)
  | PleaseEnterItemID
  | QuantityAtLeastOne
  | UpdatedQuantityFromTo (name : str) (old new : Z)
  | ItemNotFoundInCart (id : str)
  | FillInAllFields
  | AlreadyExists (name store : str)
  | AddedToCatalog (name store : str).

(** ** Dictionary and list helpers *)

(** [d.get(k, [])] on the [stores] dict. *)
Fixpoint stores_get (k : str) (d : list (str * list item)) : list item :=
  match d with
  | [] => []
  | (k', v) :: d' => if decide (k' = k) then v else stores_get k d'
  end.

(** The first item with the given id, in list order. *)
Fixpoint find_item (i : str) (l : list item) : option item :=
  match l with
  | [] => None
  | x :: l' => if decide (item_id x = i) then Some x else find_item i l'
  end.

(** The nested loop [for store_name, items in self.stores.items(): for item
    in items: if item['id'] == item_id]: the first hit in iteration order. *)
Fixpoint find_in_stores (i : str) (d : list (str * list item)) : option item :=
  match d with
  | [] => None
  | (_, l) :: d' =>
      match find_item i l with
      | Some x => Some x
      | None => find_in_stores i d'
      end
  end.

(** The loop [for list_item in self.shopping_list: if list_item['id'] ==
    item_id: ...; return]: the first entry with the given id as it was, and
    the cart with [f] applied to it; [None] when the loop ends without a
    hit. *)
Fixpoint update_first (i : str) (f : entry → entry) (l : list entry)
  : option (entry * list entry) :=
  match l with
  | [] => None
  | e :: l' =>
      if decide (entry_id e = i) then Some (e, f e :: l')
      else '(e0, r) ← update_first i f l'; Some (e0, e :: r)
  end.

Definition add_quantity (q : Z) (e : entry) : entry :=
  Entry (entry_item e) (quantity e + q).
Definition set_quantity (q : Z) (e : entry) : entry :=
  Entry (entry_item e) q.

(** [sum(item['price'] * item['quantity'] for item in l)] *)
Definition sum_cost (l : list entry) : Q :=
  fold_left (λ acc e, acc + entry_price e * inject_Z (quantity e))%Q l 0%Q.

Definition Qlt_bool (a b : Q) : bool := negb (Qle_bool b a).

(** [l[:n]] when [len(l) > n], [l] otherwise: the rotation of the ring. *)
Definition rotate_out (n : nat) (l : list archive) : list archive :=
  if (n <? length l)%nat then take n l else l.

(** Apply [f] to the first item with the given id of one store's list. *)
Fixpoint update_first_item (i : str) (f : item → item) (l : list item)
  : option (list item) :=
  match l with
  | [] => None
  | x :: l' =>
      if decide (item_id x = i) then Some (f x :: l')
      else option_map (cons x) (update_first_item i f l')
  end.

(** The same over the stores, in iteration order. *)
Fixpoint update_first_in_stores (i : str) (f : item → item)
    (d : list (str * list item)) : option (list (str * list item)) :=
  match d with
  | [] => None
  | (k, l) :: d' =>
      match update_first_item i f l with
      | Some l' => Some ((k, l') :: d')
      | None => option_map (cons (k, l)) (update_first_in_stores i f d')
      end
  end.

(** The four optional assignments of [update_catalog_item]. *)
Definition patch (name category : option str) (price : option Q)
    (unit : option str) (x : item) : item :=
  Item (item_id x)
       (default (item_name x) name)
       (default (item_category x) category)
       (item_store x)
       (default (item_price x) price)
       (default (item_unit x) unit)
       (item_default_quantity x).

Definition patch_entry (i : str) (name category : option str)
    (price : option Q) (unit : option str) (e : entry) : entry :=
  if decide (entry_id e = i)
  then Entry (patch name category price unit (entry_item e)) (quantity e)
  else e.

(** One turn of the loop of [delete_multiple_archives]: the ring and
    [deleted_count] after [index]. *)
Definition delete_step (acc : list archive * Z) (index : Z)
  : list archive * Z :=
  if (0 <=? index) && (index <? Z.of_nat (length acc.1))
  then (delete (Z.to_nat index) acc.1, acc.2 + 1)
  else acc.

(** The loop over the sorted indices. *)
Definition delete_loop (sorted_indices : list Z) (l : list archive)
  : list archive * Z :=
  fold_left delete_step sorted_indices (l, 0).

(** Order of [sorted(indices, reverse=True)]. *)
Definition desc (a b : Z) : Prop := b ≤ a.

#[global] Instance desc_dec : RelDecision desc.
Proof. intros a b. unfold desc. apply _. Defined.

Definition sorted_reverse (indices : list Z) : list Z :=
  merge_sort desc indices.

(** [a <= b] on strings: by code points, a prefix first. *)
Fixpoint str_leb (a b : str) : bool :=
  match a, b with
  | [], _ => true
  | _ :: _, [] => false
  | c :: a', d :: b' =>
      if (c <? d)%N then true
      else if (d <? c)%N then false
      else str_leb a' b'
  end.

Definition str_le (a b : str) : Prop := str_leb a b = true.

#[global] Instance str_le_dec : RelDecision str_le.
Proof. intros a b. unfold str_le. apply _. Defined.

(** [d[name] = d.get(name, 0) + q] on a dict of counts, kept in insertion
    order. *)
Fixpoint counts_add (name : str) (q : Z) (d : list (str * Z))
  : list (str * Z) :=
  match d with
  | [] => [(name, 0 + q)]
  | (n, c) :: d' =>
      if decide (n = name) then (n, c + q) :: d'
      else (n, c) :: counts_add name q d'
  end.

(** [d.get(name)] on the same dict. *)
Fixpoint counts_get (name : str) (d : list (str * Z)) : option Z :=
  match d with
  | [] => None
  | (n, c) :: d' => if decide (n = name) then Some c else counts_get name d'
  end.

(** The place of a row among rows sorted by count, largest first, rows of
    equal count in their former order. *)
Fixpoint insert_desc (p : str * Z) (l : list (str * Z)) : list (str * Z) :=
  match l with
  | [] => [p]
  | p' :: l' =>
      if p.2 <? p'.2 then p' :: insert_desc p l' else p :: p' :: l'
  end.

(** [sorted(rows, key=lambda x: x[1], reverse=True)]: a stable sort. *)
Definition sorted_by_count (rows : list (str * Z)) : list (str * Z) :=
  foldr insert_desc [] rows.

(** ** The methods of [GroceryManager] *)

Module GroceryManager.

Definition _schedule_save (st : state) : state := set_save_pending true st.

(** [force_save]: the flag is raised, [_do_save] writes and lowers it. *)
Definition force_save (st : state) : state := set_save_pending false st.

Definition add_to_shopping_list (i : str) (q : Z) (st : state)
  : bool * state :=
  match find_in_stores i (stores st) with
  | Some x =>
      match update_first i (add_quantity q) (shopping_list st) with
      | Some (_, l') => (true, _schedule_save (set_shopping_list l' st))
      | None =>
          (true, _schedule_save
                   (set_shopping_list (shopping_list st ++ [Entry x q]) st))
      end
  | None => (false, st)
  end.

Definition remove_from_shopping_list (i : str) (st : state) : state :=
  _schedule_save
    (set_shopping_list (filter (λ e, entry_id e ≠ i) (shopping_list st)) st).

Definition update_quantity (i : str) (q : Z) (st : state) : bool * state :=
  match update_first i (set_quantity q) (shopping_list st) with
  | Some (_, l') => (true, _schedule_save (set_shopping_list l' st))
  | None => (false, st)
  end.

Definition get_total_cost (st : state) : Q :=
  round (sum_cost (shopping_list st)) 2.

Inductive budget_level :=
  | OnTrack
  | Approaching
  | OverBudget (over_amount : Q).

Record budget_status := BudgetStatus {
  bs_total : Q;
  bs_budget : Q;
  bs_percentage : Q;
  bs_status : budget_level;
  bs_remaining : Q
}.

(** [(total / self.budget * 100) if self.budget > 0 else 0] *)
Definition percentage_of (total budget : Q) : option Q :=
  if Qlt_bool 0 budget
  then r ← truediv total budget; Some (r * 100)%Q
  else Some 0%Q.

(** [None] stands for an uncaught [ZeroDivisionError]. *)
Definition get_budget_status (st : state) : option budget_status :=
  let total := get_total_cost st in
  percentage ← percentage_of total (budget st);
  let status :=
    if Qlt_bool percentage 80 then OnTrack
    else if Qlt_bool percentage 100 then Approaching
    else OverBudget (total - budget st)%Q in
  Some (BudgetStatus total (budget st) (round percentage 1) status
          (round (budget st - total) 2)).

Definition set_budget (amount : Q) (st : state) : state :=
  _schedule_save (set_budget_field amount st).

Definition clear_shopping_list (st : state) : state :=
  _schedule_save (set_shopping_list [] st).

Definition update_catalog_item (i : str) (name category : option str)
    (price : option Q) (unit : option str) (st : state) : bool * state :=
  match update_first_in_stores i (patch name category price unit)
          (stores st) with
  | Some d' =>
      (true,
       _schedule_save
         (set_shopping_list
            (map (patch_entry i name category price unit) (shopping_list st))
            (set_stores d' st)))
  | None => (false, st)
  end.

(** The entries [archive_and_restart] selects. *)
Definition store_items (store_name : option str) (st : state) : list entry :=
  if truthy store_name
  then filter (λ e, entry_store e = store_name) (shopping_list st)
  else shopping_list st.

Definition archive_entry (store_name : option str) (now : timestamp)
    (st : state) : archive :=
  let items := store_items store_name st in
  Archive (isoformat now) (date_label now)
          (Some (str_or store_name (lit "All Stores")))
          items (length items) (round (sum_cost items) 2).

Definition archive_and_restart (store_name : option str) (now : timestamp)
    (st : state) : (bool * message) * state :=
  match store_items store_name st with
  | [] => ((false, NoItemsToArchive store_name), st)
  | _ :: _ =>
      let a := archive_entry store_name now st in
      let ring := rotate_out max_archives (a :: archived_lists st) in
      let cart :=
        if truthy store_name
        then filter (λ e, entry_store e ≠ store_name) (shopping_list st)
        else [] in
      ((true, ArchivedItems (arch_item_count a)
                (str_or store_name (lit "all stores")) (arch_total_cost a)),
       force_save (set_shopping_list cart (set_archived_lists ring st)))
  end.

Definition restore_from_archive (archive_index : Z) (st : state)
  : (bool * message) * state :=
  if (archive_index <? 0)
     || (Z.of_nat (length (archived_lists st)) <=? archive_index)
  then ((false, InvalidArchiveIndex), st)
  else
    match archived_lists st !! Z.to_nat archive_index with
    | None => ((false, InvalidArchiveIndex), st)
    | Some a =>
        let store_name := arch_store a in
        let kept :=
          if truthy store_name
          then filter (λ e, entry_store e ≠ store_name) (shopping_list st)
          else [] in
        ((true, RestoredItems (length (arch_items a)) (arch_date_label a)),
         _schedule_save (set_shopping_list (kept ++ arch_items a) st))
    end.

Definition get_store_item_count (store_name : option str) (st : state)
  : nat :=
  length (filter (λ e, entry_store e = store_name) (shopping_list st)).

Definition delete_archive (archive_index : Z) (st : state)
  : (bool * message) * state :=
  if (archive_index <? 0)
     || (Z.of_nat (length (archived_lists st)) <=? archive_index)
  then ((false, InvalidArchiveIndex), st)
  else
    match archived_lists st !! Z.to_nat archive_index with
    | None => ((false, InvalidArchiveIndex), st)
    | Some a =>
        ((true, DeletedArchive (default (lit "Unknown") (arch_store a))
                  (arch_date_label a)),
         force_save
           (set_archived_lists
              (delete (Z.to_nat archive_index) (archived_lists st)) st))
    end.

Definition delete_multiple_archives (indices : list Z) (st : state)
  : (bool * message) * state :=
  match indices with
  | [] => ((false, NoArchivesSelected), st)
  | _ :: _ =>
      let r := delete_loop (sorted_reverse indices) (archived_lists st) in
      if 0 <? r.2
      then ((true, DeletedArchives r.2),
            force_save (set_archived_lists r.1 st))
      else ((false, NoValidArchives), st)
  end.

Record archive_summary := ArchiveSummary {
  total_archives : nat;
  total_spent : Q;
  total_items : nat;
  avg_per_trip : Q;
  store_totals : list (str * Q);
  top_items : list (str * Z)
}.

(** The names and quantities of all archived entries, in the order of the
    two nested loops. *)
Definition archived_entries (ring : list archive) : list entry :=
  concat (arch_items <$> ring).

Definition item_counts (ring : list archive) : list (str * Z) :=
  fold_left
    (λ d e, counts_add (item_name (entry_item e)) (quantity e) d)
    (archived_entries ring) [].

(** [get_archive_summary]: [Some None] is the Python [None] returned for an
    empty ring, and [None] an uncaught [ZeroDivisionError]. No archive has
    a ['store_totals'] key, so that the store totals stay empty. *)
Definition get_archive_summary (st : state) : option (option archive_summary) :=
  match archived_lists st with
  | [] => Some None
  | _ :: _ =>
      let ring := archived_lists st in
      let spent := fold_left Qplus (arch_total_cost <$> ring) 0%Q in
      let items := fold_left Nat.add (arch_item_count <$> ring) 0%nat in
      avg ← (if ring is [] then Some 0%Q
             else truediv spent (inject_Z (Z.of_nat (length ring))));
      Some (Some (ArchiveSummary (length ring) (round spent 2) items
                    (round avg 2) []
                    (take 10 (sorted_by_count (item_counts ring)))))
  end.

End GroceryManager.

(** ** The helpers of [app.py]

    They act on the module-level [grocery_manager], here the [state]. *)

(** The functions of the Python library that depend on the Unicode database
    or on number syntax: [unicodedata.normalize('NFKD', s)],
    [unicodedata.combining(c)], [s.lower()], [int(s)] (which raises
    [ValueError], here [None]) and [str(n)]. *)
Class PyBuiltins := {
  normalize_NFKD : str → str;
  combining : char → Z;
  lower : str → str;
  int_of_str : str → option Z;
  str_of_int : Z → str
}.

Inductive exception := KeyError (key : str).

Inductive outcome (A : Type) :=
  | Returns (a : A)
  | Raises (e : exception).
Arguments Returns {A} a.
Arguments Raises {A} e.

(** [d[k].append(x)] on the [stores] dict; [None] when the key is absent. *)
Fixpoint stores_append (k : str) (x : item) (d : list (str * list item))
  : option (list (str * list item)) :=
  match d with
  | [] => None
  | (k', v) :: d' =>
      if decide (k' = k) then Some ((k', v ++ [x]) :: d')
      else option_map (cons (k', v)) (stores_append k x d')
  end.

(** The loop [for i, item in enumerate(l): if item['id'] == item_id:
    l.pop(i)]: the first entry with the id, and the list without it. *)
Fixpoint pop_first (i : str) (l : list entry) : option (entry * list entry) :=
  match l with
  | [] => None
  | e :: l' =>
      if decide (entry_id e = i) then Some (e, l')
      else '(e0, r) ← pop_first i l'; Some (e0, e :: r)
  end.

(** The same loop over a store's items. *)
Fixpoint pop_first_item (i : str) (l : list item) : option (item * list item) :=
  match l with
  | [] => None
  | x :: l' =>
      if decide (item_id x = i) then Some (x, l')
      else '(x0, r) ← pop_first_item i l'; Some (x0, x :: r)
  end.

(** The list under the key [k] of the [stores] dict after it was changed
    in place to [v]. *)
Fixpoint stores_replace (k : str) (v : list item) (d : list (str * list item))
  : list (str * list item) :=
  match d with
  | [] => []
  | (k', v') :: d' =>
      if decide (k' = k) then (k', v) :: d'
      else (k', v') :: stores_replace k v d'
  end.

Module App.

Definition add_to_cart (i : str) (q : Z) (st : state) : message * state :=
  match find_in_stores i (stores st) with
  | None => (ItemNotFound, st)
  | Some x =>
      match update_first i (add_quantity q) (shopping_list st) with
      | Some (e, l') =>
          (UpdatedQuantityTo (item_name x) (quantity e + q),
           set_shopping_list l' st)
      | None =>
          (AddedToCart q (item_name x),
           set_shopping_list (shopping_list st ++ [Entry x q]) st)
      end
  end.

Definition update_item_quantity (i : str) (new_quantity : Z) (st : state)
  : message * state :=
  if bool_decide (i = []) || bool_decide (strip i = []) then
    (PleaseEnterItemID, st)
  else if new_quantity <? 1 then (QuantityAtLeastOne, st)
  else
    match update_first (strip i) (set_quantity new_quantity)
            (shopping_list st) with
    | Some (e, l') =>
        (UpdatedQuantityFromTo (item_name (entry_item e)) (quantity e)
           new_quantity,
         set_shopping_list l' st)
    | None => (ItemNotFoundInCart i, st)
    end.

Inductive budget_warning := OverBudgetWarning | ApproachingLimit | BudgetOnTrack.

(** The text of [status] is given by its three numbers: budget, spent and
    remaining. [None] stands for an uncaught [ZeroDivisionError]. *)
Definition get_budget_status (st : state)
  : option ((Q * Q * Q) * budget_warning * Q) :=
  let total := sum_cost (shopping_list st) in
  let budget := budget st in
  let remaining := (budget - total)%Q in
  let warning :=
    if Qlt_bool remaining 0 then OverBudgetWarning
    else if Qlt_bool remaining (budget * (1 # 10)) then ApproachingLimit
    else BudgetOnTrack in
  ratio ← (if Qlt_bool 0 budget then truediv total budget else Some 0%Q);
  Some ((budget, total, remaining), warning, ratio).

Section Catalog.

Context `{PyBuiltins}.

Definition normalize_text (text : str) : str :=
  match text with
  | [] => text
  | _ :: _ =>
      let normalized := normalize_NFKD text in
      let ascii_text := filter (λ c, combining c = 0) normalized in
      strip ascii_text
  end.

(** The numeric suffix of one id, when it has the prefix and parses. *)
Definition id_number (prefix : str) (item_id : str) : option Z :=
  if startswith item_id prefix
  then split 45%N item_id !! 1%nat ≫= int_of_str
  else None.

Definition max_id (prefix : str) (store_items : list item) : Z :=
  fold_left
    (λ acc x,
       match id_number prefix (item_id x) with
       | Some num => Z.max acc num
       | None => acc
       end)
    store_items 0.

(** The name the duplicate check compares with the catalog. *)
Definition name_key (name : str) : str :=
  lower (normalize_text (strip name)).

Definition add_catalog_item (store_name name category : str) (price : Q)
    (unit : str) (st : state) : outcome (message * state) :=
  if bool_decide (name = []) || bool_decide (category = [])
     || Qle_bool price 0
  then Returns (FillInAllFields, st)
  else
    let name_normalized := normalize_text (strip name) in
    let category_normalized := normalize_text (strip category) in
    let store_items := stores_get store_name (stores st) in
    let name_trimmed := lower name_normalized in
    if existsb (λ x, bool_decide (lower (item_name x) = name_trimmed))
         store_items
    then Returns (AlreadyExists name_normalized store_name, st)
    else
      let prefix := remove_char 32%N (lower (take 2 store_name)) in
      let new_id :=
        prefix ++ lit "-" ++ str_of_int (max_id prefix store_items + 1) in
      let new_item :=
        Item new_id name_normalized category_normalized (Some store_name)
             price (strip unit) None in
      match stores_append store_name new_item (stores st) with
      | None => Raises (KeyError store_name)
      | Some d' =>
          Returns (AddedToCatalog name_normalized store_name,
                   GroceryManager._schedule_save (set_stores d' st))
      end.

End Catalog.

Inductive removal_message :=
  | PleaseSelectItem
  | RemovedFromList (name : str)
  | NotInShoppingList.

(** [remove_from_cart]; the data frame returned beside the message is the
    display of the new cart and is not kept. *)
Definition remove_from_cart (i : str) (st : state) : removal_message * state :=
  if bool_decide (i = []) || bool_decide (strip i = []) then
    (PleaseSelectItem, st)
  else
    match pop_first (strip i) (shopping_list st) with
    | Some (e, l') =>
        (RemovedFromList (item_name (entry_item e)), set_shopping_list l' st)
    | None => (NotInShoppingList, st)
    end.

(** [get_store_total]: the amount its text shows with two decimals. *)
Definition get_store_total (store_name : str) (st : state) : Q :=
  round (sum_cost (filter (λ e, entry_store e = Some store_name)
                     (shopping_list st))) 2.

Inductive catalog_message :=
  | PleaseSelectItemToDelete
  | RemovedFromCatalog (name store : str)
  | NotInCatalog (store : str).

Definition delete_catalog_item (store_name i : str) (st : state)
  : catalog_message * state :=
  if bool_decide (i = []) || bool_decide (strip i = []) then
    (PleaseSelectItemToDelete, st)
  else
    match pop_first_item (strip i) (stores_get store_name (stores st)) with
    | Some (x, l') =>
        (RemovedFromCatalog (item_name x) store_name,
         GroceryManager._schedule_save
           (set_stores (stores_replace store_name l' (stores st)) st))
    | None => (NotInCatalog store_name, st)
    end.

(** [get_categories]: the set of the categories of the store with
    "Miscellaneous", sorted, after "All Categories". *)
Definition get_categories (store_name : str) (st : state) : list str :=
  let items := stores_get store_name (stores st) in
  let categories :=
    remove_dups ((item_category <$> items) ++ [lit "Miscellaneous"]) in
  lit "All Categories" :: merge_sort str_le categories.

Inductive store_status :=
  | NoStatus
  | OverStoreBudget (over : Q)
  | CloseToLimit (pct : Q)
  | Used (pct : Q)
  | Good (pct : Q).

(** [get_store_status] of the budget display; [None] stands for an
    uncaught [ZeroDivisionError]. *)
Definition get_store_status (spent budget : Q) : option store_status :=
  if Qeq_bool budget 0 then Some NoStatus
  else
    r ← truediv spent budget;
    let pct := (r * 100)%Q in
    Some (if Qlt_bool budget spent then OverStoreBudget (spent - budget)
          else if Qlt_bool 90 pct then CloseToLimit pct
          else if Qlt_bool 75 pct then Used pct
          else Good pct).

End App.

(** ** Reachable states

    The calls that change a manager: the mutating methods of
    [GroceryManager] and the two cart helpers of [app.py]. *)

Inductive call :=
  | AddToShoppingList (item_id : str) (quantity : Z)
  | RemoveFromShoppingList (item_id : str)
  | UpdateQuantity (item_id : str) (quantity : Z)
  | SetBudget (amount : Q)
  | ClearShoppingList
  | UpdateCatalogItem (item_id : str) (name category : option str)
      (price : option Q) (unit : option str)
  | ArchiveAndRestart (store_name : option str) (now : timestamp)
  | RestoreFromArchive (archive_index : Z)
  | DeleteArchive (archive_index : Z)
  | DeleteMultipleArchives (indices : list Z)
  | AddToCart (item_id : str) (quantity : Z)
  | UpdateItemQuantity (item_id : str) (new_quantity : Z).

Definition run (c : call) (st : state) : state :=
  match c with
  | AddToShoppingList i q => (GroceryManager.add_to_shopping_list i q st).2
  | RemoveFromShoppingList i => GroceryManager.remove_from_shopping_list i st
  | UpdateQuantity i q => (GroceryManager.update_quantity i q st).2
  | SetBudget a => GroceryManager.set_budget a st
  | ClearShoppingList => GroceryManager.clear_shopping_list st
  | UpdateCatalogItem i n c p u =>
      (GroceryManager.update_catalog_item i n c p u st).2
  | ArchiveAndRestart s now => (GroceryManager.archive_and_restart s now st).2
  | RestoreFromArchive k => (GroceryManager.restore_from_archive k st).2
  | DeleteArchive k => (GroceryManager.delete_archive k st).2
  | DeleteMultipleArchives ks =>
      (GroceryManager.delete_multiple_archives ks st).2
  | AddToCart i q => (App.add_to_cart i q st).2
  | UpdateItemQuantity i q => (App.update_item_quantity i q st).2
  end.

(** A manager starts with an empty cart and an empty ring, whatever its
    catalog and budget, and then serves calls. *)
Inductive reachable : state → Prop :=
  | reachable_init st :
      shopping_list st = [] → archived_lists st = [] → reachable st
  | reachable_run c st : reachable st → reachable (run c st).

Definition run_all (cs : list call) (st : state) : state :=
  fold_left (λ s c, run c s) cs st.

(** At most one cart entry per item id. *)
Definition unique_ids (l : list entry) : Prop := NoDup (entry_id <$> l).

(** Every cart entry is the copy of the catalog item that its id finds. *)
Definition synced (st : state) : Prop :=
  Forall (λ e, find_in_stores (entry_id e) (stores st) = Some (entry_item e))
    (shopping_list st).

(** The cart entries of one store. *)
Definition entries_of (s : str) (l : list entry) : list entry :=
  filter (λ e, entry_store e = Some s) l.

(** [q1 + ... + qn] *)
Definition total_quantity (qs : list Z) : Z := foldr Z.add 0 qs.

(** The quantity bought under one name over a list of entries. *)
Definition quantity_of_name (name : str) (entries : list entry) : Z :=
  foldr (λ e acc, if decide (item_name (entry_item e) = name)
                  then quantity e + acc else acc) 0 entries.

(** The positions of [l], counted from [k], that are not in [indices]: what
    a batch deletion by index is meant to leave. *)
Fixpoint without_indices {A} (indices : list Z) (k : Z) (l : list A)
  : list A :=
  match l with
  | [] => []
  | a :: l' =>
      if decide (k ∈ indices) then without_indices indices (k + 1) l'
      else a :: without_indices indices (k + 1) l'
  end.

(** "Café" with the letter U+00E9, and with "e" followed by the combining
    acute accent U+0301. *)
Definition cafe_acute : str := [67; 97; 102; 233]%N.
Definition cafe_decomposed : str := [67; 97; 102; 101; 769]%N.

(** ** Sample data

    Rows of the seed catalog of [_initialize_sample_data], and a small
    fragment of the Python library for the catalog helper. *)

Module Sample.

Definition trader_joes : str := lit "Trader Joe's".
Definition safeway : str := lit "Safeway".

Definition bananas : item :=
  Item (lit "tj-1") (lit "Organic Bananas") (lit "Produce")
       (Some trader_joes) (99 # 100) (lit "lb") (Some 2).
Definition avocados : item :=
  Item (lit "tj-2") (lit "Avocados") (lit "Produce")
       (Some trader_joes) (149 # 100) (lit "each") (Some 3).
Definition chicken : item :=
  Item (lit "sw-1") (lit "Chicken Breast") (lit "Meat")
       (Some safeway) (499 # 100) (lit "lb") (Some 2).

Definition catalog : list (str * list item) :=
  [(trader_joes, [bananas; avocados]); (safeway, [chicken])].

(** A manager right after its construction from the catalog. *)
Definition fresh : state := State catalog [] 750 [] false.

(** The same manager with a cart over two stores. *)
Definition stocked : state :=
  State catalog [Entry bananas 2; Entry chicken 1; Entry avocados 3]
        750 [] false.

(** The stocked manager with the budget set to zero. *)
Definition no_budget : state :=
  State catalog (shopping_list stocked) 0 [] false.

Definition now : timestamp :=
  Timestamp (lit "2025-01-04T10:30:00-08:00") (lit "2025-01-04 10:30").

(** A fragment of the Python library, enough for ASCII text and "é":
    decomposition and combining class of the Unicode database for U+00E9
    and U+0301, ASCII lower case, decimal digits. *)
Definition decompose (c : char) : str :=
  if (c =? 233)%N then [101; 769]%N else [c].

Fixpoint parse_digits (acc : Z) (s : str) : option Z :=
  match s with
  | [] => Some acc
  | c :: s' =>
      if ((48 <=? c) && (c <=? 57))%N
      then parse_digits (acc * 10 + Z.of_N (c - 48)) s'
      else None
  end.

Definition builtins : PyBuiltins := {|
  normalize_NFKD s := concat (map decompose s);
  combining c := if (c =? 769)%N then 230 else 0;
  lower s :=
    map (λ c, if ((65 <=? c) && (c <=? 90))%N then (c + 32)%N else c) s;
  int_of_str s := if s is [] then None else parse_digits 0 s;
  str_of_int n := lit (NilZero.string_of_int (Z.to_int n))
|}.

(** A catalog whose first store already has an item named "Cafe". *)
Definition cafe : item :=
  Item (lit "tr-1") (lit "Cafe") (lit "Beverages") (Some trader_joes)
       (350 # 100) (lit "each") None.

Definition with_cafe : state :=
  State [(trader_joes, [bananas; cafe]); (safeway, [chicken])] [] 750 []
        false.

Definition trip (store : str) (x : item) (label : string) : archive :=
  Archive (lit label) (lit label) (Some store) [Entry x 1] 1
          (round (item_price x) 2).

(** A manager with three archives in its ring, newest first. *)
Definition three_trips : state :=
  State catalog [] 750
        [trip trader_joes avocados "2025-01-03";
         trip safeway chicken "2025-01-02";
         trip trader_joes bananas "2025-01-01"]
        false.

(** Six shopping trips, each archived, and a seventh cart ready. *)
Definition one_trip : list call :=
  [AddToShoppingList (lit "tj-1") 1; ArchiveAndRestart (Some trader_joes) now].

Definition full_ring : state :=
  run (AddToShoppingList (lit "sw-1") 1)
    (run_all (concat (replicate 6 one_trip)) fresh).

(** Fill the cart, archive it for all stores, add again, restore. *)
Definition restore_all_stores_calls : list call :=
  [AddToShoppingList (lit "tj-1") 2;
   ArchiveAndRestart None now;
   AddToShoppingList (lit "tj-1") 1;
   RestoreFromArchive 0].

End Sample.

(** * Properties *)

(** ** The cart loop *)

Section UpdateFirst.

Variable i : str.
Variable f : entry → entry.
Hypothesis f_id : ∀ e, entry_id (f e) = entry_id e.

Lemma update_first_None l :
  update_first i f l = None ↔ Forall (λ e, entry_id e ≠ i) l.
Proof.
  induction l as [|e l IH]; simpl.
  - split; [constructor | reflexivity].
  - destruct (decide (entry_id e = i)) as [He|He].
    + split; [discriminate|]. inversion 1; contradiction.
    + destruct (update_first i f l) as [[e0 r]|]; simpl.
      * split; [discriminate|]. inversion 1; subst.
        apply IH in H3. discriminate.
      * split; [|reflexivity]. intros _. constructor; [exact He|].
        apply IH. reflexivity.
Qed.

(** A hit splits the cart around the first entry with the id. *)
Lemma update_first_Some l e0 l' :
  update_first i f l = Some (e0, l') ↔
  ∃ l1 l2, l = l1 ++ e0 :: l2 ∧ l' = l1 ++ f e0 :: l2
           ∧ entry_id e0 = i ∧ Forall (λ e, entry_id e ≠ i) l1.
Proof.
  revert l'. induction l as [|e l IH]; intros l'; simpl.
  - split; [discriminate|]. intros (l1 & l2 & Hl & _).
    destruct l1; discriminate.
  - destruct (decide (entry_id e = i)) as [He|He].
    + split.
      * intros [= <- <-]. exists [], l. repeat split; auto.
      * intros (l1 & l2 & Hl & Hl' & Hi & Hl1).
        destruct l1 as [|e1 l1]; simpl in *.
        -- injection Hl as -> ->. subst l'. reflexivity.
        -- injection Hl as -> ->. inversion Hl1; contradiction.
    + split.
      * destruct (update_first i f l) as [[e1 r]|] eqn:E; simpl;
          [|discriminate].
        intros [= <- <-].
        destruct (proj1 (IH r) eq_refl) as (l1 & l2 & -> & -> & Hi & Hl1).
        exists (e :: l1), l2. repeat split; auto.
      * intros (l1 & l2 & Hl & Hl' & Hi & Hl1).
        destruct l1 as [|e1 l1]; simpl in *.
        -- injection Hl as -> ->. contradiction.
        -- injection Hl as -> ->. apply Forall_cons in Hl1 as [_ Hl1].
           assert (E : update_first i f (l1 ++ e0 :: l2)
                       = Some (e0, l1 ++ f e0 :: l2)).
           { apply IH. exists l1, l2. repeat split; auto. }
           rewrite E, Hl'. reflexivity.
Qed.

Lemma update_first_length l e0 l' :
  update_first i f l = Some (e0, l') → length l' = length l.
Proof.
  intros (l1 & l2 & -> & -> & _)%update_first_Some.
  rewrite !length_app. reflexivity.
Qed.

(** The ids of the cart, in order, are those of before. *)
Lemma update_first_ids l e0 l' :
  update_first i f l = Some (e0, l') → entry_id <$> l' = entry_id <$> l.
Proof.
  intros (l1 & l2 & -> & -> & _)%update_first_Some.
  rewrite !fmap_app, !fmap_cons, f_id. reflexivity.
Qed.

(** The stores of the cart too, when [f] keeps the store. *)
Lemma update_first_other j l e0 l' :
  j ≠ i → update_first i f l = Some (e0, l') →
  filter (λ e, entry_id e = j) l' = filter (λ e, entry_id e = j) l.
Proof.
  intros Hj (l1 & l2 & -> & -> & Hi & _)%update_first_Some.
  rewrite !filter_app, !filter_cons.
  rewrite f_id, Hi.
  destruct (decide (i = j)); [congruence | reflexivity].
Qed.

End UpdateFirst.

Lemma Forall_filter_nil {A} (P : A → Prop) `{∀ x, Decision (P x)} l :
  Forall (λ x, ¬ P x) l → filter P l = [].
Proof.
  induction 1 as [|x l Hx _ IH]; [reflexivity|].
  rewrite filter_cons. destruct (decide (P x)); [contradiction | exact IH].
Qed.

Lemma Forall_filter_all {A} (P : A → Prop) `{∀ x, Decision (P x)} l :
  Forall P l → filter P l = l.
Proof.
  induction 1 as [|x l Hx _ IH]; [reflexivity|].
  rewrite filter_cons. destruct (decide (P x)); [|contradiction].
  f_equal. exact IH.
Qed.

Lemma filter_nil_Forall {A} (P : A → Prop) `{∀ x, Decision (P x)} l :
  filter P l = [] → Forall (λ x, ¬ P x) l.
Proof.
  induction l as [|x l IH]; [constructor|].
  rewrite filter_cons. destruct (decide (P x)); [discriminate|].
  intros E. constructor; auto.
Qed.

Lemma add_quantity_id q e : entry_id (add_quantity q e) = entry_id e.
Proof. reflexivity. Qed.

Lemma set_quantity_id q e : entry_id (set_quantity q e) = entry_id e.
Proof. reflexivity. Qed.

(** ** Adding to the cart *)

Lemma find_item_id i l x : find_item i l = Some x → item_id x = i.
Proof.
  induction l as [|y l IH]; [discriminate|]. simpl.
  destruct (decide (item_id y = i)); [congruence | exact IH].
Qed.

Lemma find_in_stores_id i d x : find_in_stores i d = Some x → item_id x = i.
Proof.
  induction d as [|[k l] d IH]; [discriminate|]. simpl.
  destruct (find_item i l) eqn:E; [|exact IH].
  intros [= <-]. exact (find_item_id _ _ _ E).
Qed.

Section AddToCart.

Import GroceryManager.

Variables (i : str) (x : item).

Lemma add_to_shopping_list_fresh q st :
  find_in_stores i (stores st) = Some x →
  Forall (λ e, entry_id e ≠ i) (shopping_list st) →
  add_to_shopping_list i q st
  = (true, _schedule_save
             (set_shopping_list (shopping_list st ++ [Entry x q]) st)).
Proof.
  intros Hx Hl. unfold add_to_shopping_list. rewrite Hx.
  apply (update_first_None i (add_quantity q)) in Hl. rewrite Hl.
  reflexivity.
Qed.

Lemma add_to_shopping_list_merge q st l e :
  find_in_stores i (stores st) = Some x →
  Forall (λ e, entry_id e ≠ i) l → entry_id e = i →
  shopping_list st = l ++ [e] →
  add_to_shopping_list i q st
  = (true, _schedule_save
             (set_shopping_list (l ++ [add_quantity q e]) st)).
Proof.
  intros Hx Hl He Hst. unfold add_to_shopping_list. rewrite Hx, Hst.
  assert (E : update_first i (add_quantity q) (l ++ [e])
              = Some (e, l ++ [add_quantity q e])).
  { apply update_first_Some. exists l, []. auto. }
  rewrite E. reflexivity.
Qed.

(** [add_to_cart] does to the cart what [add_to_shopping_list] does. *)
Lemma add_to_cart_shopping_list q st :
  shopping_list (App.add_to_cart i q st).2
  = shopping_list (add_to_shopping_list i q st).2
  ∧ stores (App.add_to_cart i q st).2 = stores st
  ∧ stores (add_to_shopping_list i q st).2 = stores st.
Proof.
  unfold App.add_to_cart, add_to_shopping_list.
  destruct (find_in_stores i (stores st)); [|auto].
  destruct (update_first i (add_quantity q) (shopping_list st))
    as [[e l']|]; auto.
Qed.

(** Once the entry is in the cart, further calls add to its quantity. *)
Lemma add_calls_merge (add : str → Z → call) qs : ∀ st l a,
  (∀ q st, shopping_list (run (add i q) st)
           = shopping_list (add_to_shopping_list i q st).2
           ∧ stores (run (add i q) st) = stores st) →
  find_in_stores i (stores st) = Some x →
  Forall (λ e, entry_id e ≠ i) l →
  shopping_list st = l ++ [Entry x a] →
  shopping_list (run_all (map (add i) qs) st)
  = l ++ [Entry x (a + total_quantity qs)].
Proof.
  induction qs as [|q qs IH]; intros st l a Hadd Hx Hl Hst; simpl.
  - rewrite Z.add_0_r. exact Hst.
  - destruct (Hadd q st) as [Hcart Hstores].
    rewrite (IH (run (add i q) st) l (a + q)).
    + rewrite Z.add_assoc. reflexivity.
    + exact Hadd.
    + rewrite Hstores. exact Hx.
    + exact Hl.
    + rewrite Hcart.
      rewrite (add_to_shopping_list_merge q st l (Entry x a)); auto.
      exact (find_in_stores_id _ _ _ Hx).
Qed.

End AddToCart.

(** C4. Starting from a cart with no entry for an id of the catalog, a
    sequence of [add_to_shopping_list] calls for that id with the quantities
    q1, ..., qn leaves the cart as it was plus one entry at its end, the copy
    of the catalog item with quantity q1 + ... + qn: the cart has exactly one
    entry for the id. The cart helper [add_to_cart] of the interface behaves
    the same. *)
Theorem add_to_shopping_list_sums_quantities :
  ∀ (st : state) (i : str) (x : item) (q : Z) (qs : list Z),
    find_in_stores i (stores st) = Some x →
    Forall (λ e, entry_id e ≠ i) (shopping_list st) →
    Forall (λ q, 0 < q) (q :: qs) →
    ∀ add, add = AddToShoppingList ∨ add = AddToCart →
      let cart := shopping_list (run_all (map (add i) (q :: qs)) st) in
      cart = shopping_list st ++ [Entry x (total_quantity (q :: qs))]
      ∧ filter (λ e, entry_id e = i) cart
        = [Entry x (total_quantity (q :: qs))].
Proof.
  intros st i x q qs Hx Hl _ add Hadd cart.
  assert (Hrun : ∀ q st,
    shopping_list (run (add i q) st)
    = shopping_list (GroceryManager.add_to_shopping_list i q st).2
    ∧ stores (run (add i q) st) = stores st).
  { intros q' st'.
    destruct (add_to_cart_shopping_list i q' st') as (H1 & H2 & H3).
    destruct Hadd as [-> | ->]; simpl; auto. }
  assert (Hcart : cart = shopping_list st ++ [Entry x (total_quantity (q :: qs))]).
  { subst cart. simpl.
    destruct (Hrun q st) as [Hcart Hstores].
    apply (add_calls_merge i x add qs); auto.
    - rewrite Hstores. exact Hx.
    - rewrite Hcart, (add_to_shopping_list_fresh i x q st); auto. }
  split; [exact Hcart|].
  rewrite Hcart, filter_app.
  rewrite (Forall_filter_nil (λ e, entry_id e = i)); [|exact Hl].
  rewrite filter_cons, filter_nil. simpl.
  assert (Hid : entry_id (Entry x (total_quantity (q :: qs))) = i)
    by exact (find_in_stores_id _ _ _ Hx).
  destruct (decide _); [reflexivity | contradiction].
Qed.

Lemma add_to_shopping_list_sums_quantities_witness :
  let cart :=
    shopping_list
      (run_all [AddToShoppingList (lit "tj-1") 2;
                AddToShoppingList (lit "tj-1") 3] Sample.fresh) in
  cart = [Entry Sample.bananas 5]
  ∧ filter (λ e, entry_id e = lit "tj-1") cart = [Entry Sample.bananas 5].
Proof.
  apply (add_to_shopping_list_sums_quantities
           Sample.fresh (lit "tj-1") Sample.bananas 2 [3]).
  - reflexivity.
  - constructor.
  - repeat constructor.
  - left. reflexivity.
Defined.

(** ** Archiving and restoring *)

Lemma filter_filter_same {A} (P Q : A → Prop)
    `{∀ x, Decision (P x)} `{∀ x, Decision (Q x)} (l : list A) :
  (∀ x, Q x → P x) → filter P (filter Q l) = filter Q l.
Proof.
  intros HPQ. induction l as [|x l IH]; [reflexivity|].
  rewrite (filter_cons Q). destruct (decide (Q x)) as [Hq|Hq]; [|exact IH].
  rewrite filter_cons. destruct (decide (P x)) as [Hp|Hp].
  - f_equal. exact IH.
  - destruct Hp. auto.
Qed.

Lemma filter_filter_none {A} (P Q : A → Prop)
    `{∀ x, Decision (P x)} `{∀ x, Decision (Q x)} (l : list A) :
  (∀ x, Q x → ¬ P x) → filter P (filter Q l) = [].
Proof.
  intros HPQ. induction l as [|x l IH]; [reflexivity|].
  rewrite (filter_cons Q). destruct (decide (Q x)) as [Hq|Hq]; [|exact IH].
  rewrite filter_cons. destruct (decide (P x)) as [Hp|Hp]; [|exact IH].
  destruct (HPQ x Hq Hp).
Qed.

Lemma truthy_Some (s : str) : s ≠ [] → truthy (Some s) = true.
Proof. destruct s; [contradiction | reflexivity]. Qed.

Lemma str_or_Some (s d : str) : s ≠ [] → str_or (Some s) d = s.
Proof. destruct s; [contradiction | reflexivity]. Qed.

Lemma rotate_out_head n a l : rotate_out (S n) (a :: l) !! 0%nat = Some a.
Proof. unfold rotate_out. destruct (S n <? _)%nat; reflexivity. Qed.

Section Restore.

Import GroceryManager.

(** What [restore_from_archive] does at an index of the ring. *)
Lemma restore_from_archive_in_bounds k a st :
  0 ≤ k → archived_lists st !! Z.to_nat k = Some a →
  restore_from_archive k st
  = ((true, RestoredItems (length (arch_items a)) (arch_date_label a)),
     _schedule_save
       (set_shopping_list
          ((if truthy (arch_store a)
            then filter (λ e, entry_store e ≠ arch_store a)
                   (shopping_list st)
            else []) ++ arch_items a) st)).
Proof.
  intros Hk Ha. unfold restore_from_archive.
  pose proof (lookup_lt_Some _ _ _ Ha) as Hlt.
  destruct (k <? 0) eqn:E1; [lia|].
  destruct (Z.of_nat (length (archived_lists st)) <=? k) eqn:E2; [lia|].
  simpl. rewrite Ha. reflexivity.
Qed.

Lemma restore_from_archive_out_of_bounds k st :
  k < 0 ∨ Z.of_nat (length (archived_lists st)) ≤ k →
  restore_from_archive k st = ((false, InvalidArchiveIndex), st).
Proof.
  intros Hk. unfold restore_from_archive.
  destruct (k <? 0) eqn:E1; [reflexivity|].
  destruct (Z.of_nat (length (archived_lists st)) <=? k) eqn:E2;
    [reflexivity | lia].
Qed.

(** Restoring never changes the ring. *)
Lemma restore_from_archive_ring k st :
  archived_lists (restore_from_archive k st).2 = archived_lists st.
Proof.
  unfold restore_from_archive.
  destruct (_ || _); [reflexivity|].
  destruct (archived_lists st !! Z.to_nat k); reflexivity.
Qed.

End Restore.

(** C2. For a store name [s] (a non-empty string: the empty string and
    [None] are the "all stores" arguments) with at least one cart entry,
    [archive_and_restart(s)] followed by [restore_from_archive(0)] both
    succeed; the cart then holds for [s] exactly the entries it held before
    archiving, in the same order, and the entries of every other store (or
    of no store) are the same before, between and after the two calls. *)
Theorem archive_then_restore_roundtrip :
  ∀ (st : state) (s : str) (now : timestamp),
    s ≠ [] → entries_of s (shopping_list st) ≠ [] →
    ∃ m1 st1 m2 st2,
      GroceryManager.archive_and_restart (Some s) now st = ((true, m1), st1)
      ∧ GroceryManager.restore_from_archive 0 st1 = ((true, m2), st2)
      ∧ entries_of s (shopping_list st1) = []
      ∧ entries_of s (shopping_list st2) = entries_of s (shopping_list st)
      ∧ ∀ t : option str, t ≠ Some s →
          filter (λ e, entry_store e = t) (shopping_list st1)
          = filter (λ e, entry_store e = t) (shopping_list st)
          ∧ filter (λ e, entry_store e = t) (shopping_list st2)
            = filter (λ e, entry_store e = t) (shopping_list st).
Proof.
  intros st s now Hs Hsel. unfold entries_of in *.
  set (a := GroceryManager.archive_entry (Some s) now st).
  set (st1 := GroceryManager.force_save
                (set_shopping_list
                   (filter (λ e, entry_store e ≠ Some s) (shopping_list st))
                   (set_archived_lists
                      (rotate_out max_archives (a :: archived_lists st)) st))).
  assert (Hitems : arch_items a
                   = filter (λ e, entry_store e = Some s) (shopping_list st)).
  { unfold a, GroceryManager.archive_entry, GroceryManager.store_items.
    cbn [arch_items]. destruct s; [contradiction | reflexivity]. }
  set (m1 := ArchivedItems (arch_item_count a)
               (str_or (Some s) (lit "all stores")) (arch_total_cost a)).
  assert (Harch : GroceryManager.archive_and_restart (Some s) now st
                  = ((true, m1), st1)).
  { unfold GroceryManager.archive_and_restart, GroceryManager.store_items.
    rewrite (truthy_Some s Hs).
    destruct (filter (λ e, entry_store e = Some s) (shopping_list st));
      [contradiction | reflexivity]. }
  assert (Ha : archived_lists st1 !! Z.to_nat 0 = Some a)
    by apply rotate_out_head.
  assert (Hstore : arch_store a = Some s).
  { unfold a, GroceryManager.archive_entry. cbn [arch_store].
    rewrite (str_or_Some s _ Hs). reflexivity. }
  pose proof (restore_from_archive_in_bounds 0 a st1 (Z.le_refl 0) Ha) as Hr.
  rewrite Hstore, (truthy_Some s Hs), Hitems in Hr.
  eexists m1, st1, _, _. split; [exact Harch|]. split; [exact Hr|].
  simpl. split; [|split].
  - apply filter_filter_none. auto.
  - rewrite filter_app, filter_filter_none by auto. simpl.
    apply filter_filter_same. auto.
  - intros t Ht.
    assert (H1 : filter (λ e, entry_store e = t)
                   (filter (λ e, entry_store e ≠ Some s) (shopping_list st))
                 = filter (λ e, entry_store e = t) (shopping_list st)).
    { rewrite !list_filter_filter. apply list_filter_iff.
      intros e. split; [tauto | intros ->; auto]. }
    split; [exact H1|].
    rewrite filter_app.
    rewrite (filter_filter_same (λ e, entry_store e ≠ Some s)
               (λ e, entry_store e ≠ Some s)) by auto.
    rewrite H1, filter_filter_none, app_nil_r; [reflexivity|].
    intros e He1 He2. apply Ht. congruence.
Qed.

Lemma archive_then_restore_roundtrip_witness :
  ∃ m1 st1 m2 st2,
    GroceryManager.archive_and_restart (Some Sample.trader_joes) Sample.now
      Sample.stocked = ((true, m1), st1)
    ∧ GroceryManager.restore_from_archive 0 st1 = ((true, m2), st2)
    ∧ entries_of Sample.trader_joes (shopping_list st1) = []
    ∧ entries_of Sample.trader_joes (shopping_list st2)
      = entries_of Sample.trader_joes (shopping_list Sample.stocked)
    ∧ ∀ t : option str, t ≠ Some Sample.trader_joes →
        filter (λ e, entry_store e = t) (shopping_list st1)
        = filter (λ e, entry_store e = t) (shopping_list Sample.stocked)
        ∧ filter (λ e, entry_store e = t) (shopping_list st2)
          = filter (λ e, entry_store e = t) (shopping_list Sample.stocked).
Proof.
  apply (archive_then_restore_roundtrip
           Sample.stocked Sample.trader_joes Sample.now).
  - vm_compute. discriminate.
  - vm_compute. discriminate.
Defined.

Lemma reachable_run_all cs : ∀ st, reachable st → reachable (run_all cs st).
Proof.
  induction cs as [|c cs IH]; intros st Hst; [exact Hst|].
  apply IH, reachable_run, Hst.
Qed.

(** With an "all stores" argument the archived cart comes back whole when
    nothing was added in between: the cart is empty when the archive is
    restored. *)
Lemma archive_all_then_restore o now st :
  truthy o = false → shopping_list st ≠ [] →
  shopping_list
    (GroceryManager.restore_from_archive 0
       (GroceryManager.archive_and_restart o now st).2).2
  = shopping_list st.
Proof.
  intros Ho Hcart.
  assert (Hsel : GroceryManager.store_items o st = shopping_list st)
    by (unfold GroceryManager.store_items; rewrite Ho; reflexivity).
  unfold GroceryManager.archive_and_restart. rewrite Hsel, Ho.
  destruct (shopping_list st) as [|e l] eqn:E; [contradiction|].
  cbn [snd].
  set (a := GroceryManager.archive_entry o now st).
  rewrite (restore_from_archive_in_bounds 0 a); [|lia|apply rotate_out_head].
  assert (Hitems : arch_items a = e :: l).
  { unfold a, GroceryManager.archive_entry. cbn [arch_items].
    exact Hsel. }
  rewrite Hitems. destruct (truthy (arch_store a)); reflexivity.
Qed.

(** ** One cart entry per item id *)

Lemma unique_ids_filter (P : entry → Prop) `{∀ e, Decision (P e)} l :
  unique_ids l → unique_ids (filter P l).
Proof.
  unfold unique_ids. intros Hl. eapply sublist_NoDup; [exact Hl|].
  apply fmap_sublist, sublist_filter.
Qed.

Lemma unique_ids_update_first i f l e0 l' :
  (∀ e, entry_id (f e) = entry_id e) →
  update_first i f l = Some (e0, l') → unique_ids l → unique_ids l'.
Proof.
  intros Hf Hupd. unfold unique_ids.
  rewrite (update_first_ids i f Hf l e0 l' Hupd). auto.
Qed.

Lemma unique_ids_append i x q l :
  item_id x = i → Forall (λ e, entry_id e ≠ i) l →
  unique_ids l → unique_ids (l ++ [Entry x q]).
Proof.
  intros Hx Hl Hnd. unfold unique_ids. rewrite fmap_app.
  apply NoDup_app. split; [exact Hnd|]. split; [|apply NoDup_singleton].
  intros j Hj [->|[]%elem_of_nil]%elem_of_cons.
  apply list_elem_of_fmap in Hj as (e & He & Hin).
  rewrite Forall_forall in Hl. apply (Hl e Hin).
  rewrite <- He. exact Hx.
Qed.

Lemma patch_entry_ids i name category price unit l :
  entry_id <$> map (patch_entry i name category price unit) l
  = entry_id <$> l.
Proof.
  induction l as [|e l IH]; [reflexivity|].
  cbn [map]. rewrite !fmap_cons, IH.
  unfold patch_entry. destruct (decide (entry_id e = i)); reflexivity.
Qed.

(** Every call but [restore_from_archive] keeps the ids of the cart
    distinct. *)
Lemma run_keeps_unique_ids c st :
  (∀ k, c ≠ RestoreFromArchive k) →
  unique_ids (shopping_list st) → unique_ids (shopping_list (run c st)).
Proof.
  intros Hc Hst.
  destruct c as [i q | i | i q | amount | | i n cg p u | s now | k | k | ks
                | i q | i q]; simpl.
  - unfold GroceryManager.add_to_shopping_list.
    destruct (find_in_stores i (stores st)) as [x|] eqn:Ex; [|exact Hst].
    destruct (update_first _ _ _) as [[e l']|] eqn:E; simpl.
    + exact (unique_ids_update_first _ _ _ _ _ (add_quantity_id _) E Hst).
    + apply (unique_ids_append i); auto.
      * exact (find_in_stores_id _ _ _ Ex).
      * apply (update_first_None i (add_quantity q)), E.
  - apply unique_ids_filter, Hst.
  - unfold GroceryManager.update_quantity.
    destruct (update_first _ _ _) as [[e l']|] eqn:E; simpl; [|exact Hst].
    exact (unique_ids_update_first _ _ _ _ _ (set_quantity_id _) E Hst).
  - exact Hst.
  - apply NoDup_nil_2.
  - unfold GroceryManager.update_catalog_item.
    destruct (update_first_in_stores _ _ _); simpl; [|exact Hst].
    unfold unique_ids. rewrite patch_entry_ids. exact Hst.
  - unfold GroceryManager.archive_and_restart.
    destruct (GroceryManager.store_items _ _); simpl; [exact Hst|].
    destruct (truthy s);
      [apply unique_ids_filter, Hst | apply NoDup_nil_2].
  - destruct (Hc k eq_refl).
  - unfold GroceryManager.delete_archive.
    repeat case_match; simpl; exact Hst.
  - unfold GroceryManager.delete_multiple_archives.
    repeat case_match; simpl; exact Hst.
  - unfold App.add_to_cart.
    destruct (find_in_stores i (stores st)) as [x|] eqn:Ex; [|exact Hst].
    destruct (update_first _ _ _) as [[e l']|] eqn:E; simpl.
    + exact (unique_ids_update_first _ _ _ _ _ (add_quantity_id _) E Hst).
    + apply (unique_ids_append i); auto.
      * exact (find_in_stores_id _ _ _ Ex).
      * apply (update_first_None i (add_quantity q)), E.
  - unfold App.update_item_quantity.
    destruct (_ || _); [exact Hst|]. destruct (_ <? _); [exact Hst|].
    destruct (update_first _ _ _) as [[e l']|] eqn:E; simpl; [|exact Hst].
    exact (unique_ids_update_first _ _ _ _ _ (set_quantity_id _) E Hst).
Qed.

(** Restoring the archive of a store keeps the ids distinct when the
    archived ids are distinct and the cart entries that share an id with
    the archive are entries of that store. *)
Lemma restore_keeps_unique_ids k a st :
  0 ≤ k → archived_lists st !! Z.to_nat k = Some a →
  truthy (arch_store a) = true →
  unique_ids (arch_items a) →
  (∀ e e', e ∈ shopping_list st → e' ∈ arch_items a →
           entry_id e = entry_id e' → entry_store e = arch_store a) →
  unique_ids (shopping_list st) →
  unique_ids (shopping_list (GroceryManager.restore_from_archive k st).2).
Proof.
  intros Hk Ha Hstore Hitems Hshared Hst.
  rewrite (restore_from_archive_in_bounds k a st Hk Ha), Hstore. simpl.
  unfold unique_ids. rewrite fmap_app. apply NoDup_app.
  split; [apply unique_ids_filter, Hst|]. split; [|exact Hitems].
  intros j (e & -> & [He Hin]%list_elem_of_filter)%list_elem_of_fmap.
  intros (e' & He' & Hin')%list_elem_of_fmap.
  apply He, (Hshared e e' Hin Hin' He').
Qed.

(** C3, at the failing input. An archive made for all stores carries the
    store label "All Stores"; restoring it keeps the whole cart and appends
    the archived entries, where the cart should have been cleared first. *)
Theorem restore_all_stores_snapshot_keeps_cart :
  let st := run_all (take 3 Sample.restore_all_stores_calls) Sample.fresh in
  arch_store <$> archived_lists st = [Some (lit "All Stores")]
  ∧ arch_items <$> archived_lists st = [[Entry Sample.bananas 2]]
  ∧ shopping_list st = [Entry Sample.bananas 1]
  ∧ shopping_list (GroceryManager.restore_from_archive 0 st).2
    = [Entry Sample.bananas 1; Entry Sample.bananas 2].
Proof. vm_compute. repeat split; reflexivity. Qed.

(** C1, at the failing input. The state after the four calls is reachable
    and its cart has two entries for the id "tj-1". *)
Theorem restore_all_stores_duplicates_id :
  let st := run_all Sample.restore_all_stores_calls Sample.fresh in
  reachable st
  ∧ entry_id <$> shopping_list st = [lit "tj-1"; lit "tj-1"]
  ∧ ¬ unique_ids (shopping_list st).
Proof.
  intros st. split; [|split].
  - apply reachable_run_all. constructor; reflexivity.
  - reflexivity.
  - unfold unique_ids.
    replace (entry_id <$> shopping_list st) with [lit "tj-1"; lit "tj-1"]
      by reflexivity.
    intros Hnd. apply NoDup_cons in Hnd as [Hin _].
    apply Hin. left.
Qed.

(** ** The archive ring *)

Lemma rotate_out_length n l : (length (rotate_out n l) ≤ n)%nat.
Proof.
  unfold rotate_out. destruct (n <? length l)%nat eqn:E.
  - rewrite length_take. lia.
  - apply Nat.ltb_ge in E. exact E.
Qed.

Lemma length_delete_le {A} (l : list A) : ∀ i,
  (length (delete i l) ≤ length l)%nat.
Proof.
  induction l as [|x l IH]; intros [|i]; simpl; auto with lia.
  specialize (IH i). lia.
Qed.

Lemma delete_loop_length ks : ∀ l c,
  (length (fold_left delete_step ks (l, c)).1 ≤ length l)%nat.
Proof.
  induction ks as [|k ks IH]; intros l c; simpl; [reflexivity|].
  unfold delete_step at 2. simpl.
  destruct (_ && _).
  - etransitivity; [apply IH|]. apply length_delete_le.
  - apply IH.
Qed.

(** Every call other than archiving leaves the ring as long or shorter. *)
Lemma run_ring_length c st :
  (∀ s now, c ≠ ArchiveAndRestart s now) →
  (length (archived_lists (run c st)) ≤ length (archived_lists st))%nat.
Proof.
  intros Hc. destruct c; simpl;
    unfold GroceryManager.add_to_shopping_list, GroceryManager.update_quantity,
      GroceryManager.update_catalog_item, GroceryManager.restore_from_archive,
      GroceryManager.delete_archive, GroceryManager.delete_multiple_archives,
      App.add_to_cart, App.update_item_quantity;
    repeat case_match; simpl; try reflexivity.
  - destruct (Hc store_name now eq_refl).
  - apply length_delete_le.
  - apply delete_loop_length.
Qed.

Lemma archive_and_restart_ring s now st :
  GroceryManager.store_items s st ≠ [] →
  archived_lists (GroceryManager.archive_and_restart s now st).2
  = rotate_out max_archives
      (GroceryManager.archive_entry s now st :: archived_lists st).
Proof.
  intros Hsel. unfold GroceryManager.archive_and_restart.
  destruct (GroceryManager.store_items s st); [contradiction | reflexivity].
Qed.

Lemma run_ring_capacity c st :
  (length (archived_lists st) ≤ max_archives)%nat →
  (length (archived_lists (run c st)) ≤ max_archives)%nat.
Proof.
  intros Hst.
  destruct c;
    try (etransitivity; [apply run_ring_length; discriminate | exact Hst]).
  simpl. unfold GroceryManager.archive_and_restart.
  destruct (GroceryManager.store_items store_name st); simpl;
    [exact Hst | apply rotate_out_length].
Qed.

(** C5. The ring of a manager never holds more than 6 archives: every
    call keeps a ring of at most 6 within 6, so every reachable state has at
    most 6. An archiving call that has something to archive puts the new
    archive at index 0; below capacity the former ring follows it unchanged,
    and at capacity 6 the last archive, and only it, is dropped: the first
    five follow the new one in their order. *)
Theorem archive_ring_capacity :
  max_archives = 6%nat
  ∧ (∀ st, reachable st → (length (archived_lists st) ≤ max_archives)%nat)
  ∧ (∀ c st, (length (archived_lists st) ≤ max_archives)%nat →
             (length (archived_lists (run c st)) ≤ max_archives)%nat)
  ∧ (∀ s now st,
       GroceryManager.store_items s st ≠ [] →
       let a := GroceryManager.archive_entry s now st in
       let ring := archived_lists st in
       let ring' :=
         archived_lists (GroceryManager.archive_and_restart s now st).2 in
       ring' !! 0%nat = Some a
       ∧ ((length ring < max_archives)%nat → ring' = a :: ring)
       ∧ (length ring = max_archives →
          ∃ oldest, ring = take 5 ring ++ [oldest]
                    ∧ ring' = a :: take 5 ring)).
Proof.
  split; [reflexivity|]. split; [|split].
  - induction 1 as [st _ Hring | c st _ IH].
    + rewrite Hring. simpl. lia.
    + apply run_ring_capacity, IH.
  - apply run_ring_capacity.
  - intros s now st Hsel a ring ring'.
    assert (Hring' : ring' = rotate_out max_archives (a :: ring))
      by (apply archive_and_restart_ring, Hsel).
    rewrite Hring'. split; [apply rotate_out_head|]. split.
    + intros Hlt. unfold rotate_out. simpl length.
      destruct (max_archives <? S (length ring))%nat eqn:E; [|reflexivity].
      apply Nat.ltb_lt in E. lia.
    + intros Hlen. unfold rotate_out, max_archives in *. simpl length.
      rewrite Hlen. simpl.
      pose proof (length_drop ring 5) as Hdrop. rewrite Hlen in Hdrop.
      destruct (drop 5 ring) as [|oldest [|? ?]] eqn:E; try discriminate.
      exists oldest. split; [|reflexivity].
      rewrite <- E. symmetry. apply take_drop.
Qed.

(** ** Deleting archives *)

Section WithoutIndices.

Context {A : Type}.
Implicit Types (l : list A) (S : list Z) (k : Z).

Lemma without_indices_app S l1 : ∀ k l2,
  without_indices S k (l1 ++ l2)
  = without_indices S k l1
    ++ without_indices S (k + Z.of_nat (length l1)) l2.
Proof.
  induction l1 as [|a l1 IH]; intros k l2; simpl.
  - rewrite Z.add_0_r. reflexivity.
  - rewrite IH.
    replace (k + 1 + Z.of_nat (length l1))
      with (k + Z.pos (Pos.of_succ_nat (length l1))) by lia.
    destruct (decide (k ∈ S)); reflexivity.
Qed.

(** Only the positions of the list matter. *)
Lemma without_indices_ext S S' l : ∀ k,
  (∀ p, k ≤ p < k + Z.of_nat (length l) → p ∈ S ↔ p ∈ S') →
  without_indices S k l = without_indices S' k l.
Proof.
  induction l as [|a l IH]; intros k Hp; simpl; [reflexivity|].
  rewrite (IH (k + 1)).
  - assert (Hk : k ∈ S ↔ k ∈ S') by (apply Hp; simpl; lia).
    destruct (decide (k ∈ S)), (decide (k ∈ S')); tauto.
  - intros p Hrange. apply Hp. simpl. lia.
Qed.

Lemma without_indices_none S l : ∀ k,
  (∀ p, k ≤ p < k + Z.of_nat (length l) → p ∉ S) →
  without_indices S k l = l.
Proof.
  induction l as [|a l IH]; intros k Hp; simpl; [reflexivity|].
  destruct (decide (k ∈ S)) as [Hk|Hk].
  - destruct (Hp k); [simpl; lia | exact Hk].
  - f_equal. apply IH. intros p Hrange. apply Hp. simpl. lia.
Qed.

End WithoutIndices.

#[local] Instance desc_transitive : Transitive desc.
Proof. intros a b c. unfold desc. lia. Qed.

#[local] Instance desc_total : Total desc.
Proof. intros a b. unfold desc. lia. Qed.

(** [deleted_count] counts the archives that left the ring. *)
Lemma delete_loop_count ks : ∀ l c,
  (fold_left delete_step ks (l, c)).2
  = c + Z.of_nat (length l)
    - Z.of_nat (length (fold_left delete_step ks (l, c)).1).
Proof.
  induction ks as [|k ks IH]; intros l c; simpl; [lia|].
  unfold delete_step at 2 4. simpl.
  destruct (0 <=? k) eqn:E1; simpl; [|apply IH].
  destruct (k <? Z.of_nat (length l)) eqn:E2; simpl; [|apply IH].
  rewrite IH. rewrite length_delete; [lia|].
  apply lookup_lt_is_Some. lia.
Qed.

(** Indices outside the ring delete nothing. *)
Lemma delete_loop_out_of_bounds ks : ∀ l c,
  Forall (λ k, k < 0 ∨ Z.of_nat (length l) ≤ k) ks →
  fold_left delete_step ks (l, c) = (l, c).
Proof.
  induction ks as [|k ks IH]; intros l c Hks; simpl; [reflexivity|].
  apply Forall_cons in Hks as [Hk Hks].
  unfold delete_step at 2. simpl.
  destruct (0 <=? k) eqn:E1; simpl; [|apply IH, Hks].
  destruct (k <? Z.of_nat (length l)) eqn:E2; simpl; [lia | apply IH, Hks].
Qed.

(** Over distinct indices in descending order, a deletion never moves an
    archive that a later index of the batch refers to. *)
Lemma delete_loop_descending ks : ∀ l c,
  StronglySorted desc ks → NoDup ks →
  (fold_left delete_step ks (l, c)).1 = without_indices ks 0 l.
Proof.
  induction ks as [|k ks IH]; intros l c Hsorted Hnd; simpl.
  - symmetry. apply without_indices_none. intros p _. apply not_elem_of_nil.
  - apply StronglySorted_inv in Hsorted as [Hsorted Hle].
    apply NoDup_cons in Hnd as [Hk Hnd].
    assert (Hlt : ∀ j, j ∈ ks → j < k).
    { intros j Hj. rewrite Forall_forall in Hle. specialize (Hle j Hj).
      unfold desc in Hle. assert (j ≠ k) by (intros ->; contradiction). lia. }
    unfold delete_step at 2. simpl.
    destruct ((0 <=? k) && (k <? Z.of_nat (length l))) eqn:E.
    + apply andb_true_iff in E as [E1 E2].
      apply Z.leb_le in E1. apply Z.ltb_lt in E2.
      destruct (lookup_lt_is_Some_2 l (Z.to_nat k)) as [a Ha]; [lia|].
      pose proof (take_drop_middle l (Z.to_nat k) a Ha) as Hl.
      assert (Hlen : Z.of_nat (length (take (Z.to_nat k) l)) = k)
        by (rewrite length_take; lia).
      set (l1 := take (Z.to_nat k) l) in *.
      set (l2 := drop (Datatypes.S (Z.to_nat k)) l) in *.
      rewrite IH by assumption. rewrite <- Hl.
      replace (Z.to_nat k) with (length l1)
        by (unfold l1; rewrite length_take; lia).
      rewrite delete_middle, !without_indices_app. simpl.
      rewrite Hlen, !Z.add_0_l. simpl.
      destruct (decide (k ∈ k :: ks)) as [_|Hn]; [|destruct Hn; left].
      f_equal.
      * apply without_indices_ext. intros p Hp.
        rewrite elem_of_cons. split; [auto|].
        intros [->|Hin]; [lia | exact Hin].
      * rewrite !without_indices_none; [reflexivity| |].
        -- intros p Hp [->|Hin]%elem_of_cons; [lia|].
           specialize (Hlt p Hin). lia.
        -- intros p Hp Hin. specialize (Hlt p Hin). lia.
    + rewrite IH by assumption.
      apply without_indices_ext. intros p Hp.
      rewrite elem_of_cons. split; [auto|].
      intros [->|Hin]; [|exact Hin].
      apply andb_false_iff in E as [E|E];
        [apply Z.leb_gt in E | apply Z.ltb_ge in E]; lia.
Qed.

(** C9. [delete_multiple_archives] goes through the indices in descending
    numeric order. Deleting [0, 2] from a ring of three leaves the archive
    that was at index 1 alone, and reports 2. For any batch of distinct
    indices the ring keeps exactly the archives whose original position is
    not in the batch, and the count reported is the number of archives that
    left. When every index is out of bounds the call reports failure, no
    archive is deleted and the manager is unchanged. *)
Theorem delete_multiple_archives_by_index :
  (∀ indices,
     sorted_reverse indices ≡ₚ indices
     ∧ StronglySorted desc (sorted_reverse indices))
  ∧ (∀ st a b c,
       archived_lists st = [a; b; c] →
       GroceryManager.delete_multiple_archives [0; 2] st
       = ((true, DeletedArchives 2),
          GroceryManager.force_save (set_archived_lists [b] st)))
  ∧ (∀ st indices,
       indices ≠ [] → NoDup indices →
       let ring' := without_indices indices 0 (archived_lists st) in
       let n := Z.of_nat (length (archived_lists st))
                - Z.of_nat (length ring') in
       GroceryManager.delete_multiple_archives indices st
       = if 0 <? n
         then ((true, DeletedArchives n),
               GroceryManager.force_save (set_archived_lists ring' st))
         else ((false, NoValidArchives), st))
  ∧ (∀ st indices,
       Forall (λ k, k < 0 ∨ Z.of_nat (length (archived_lists st)) ≤ k)
         indices →
       delete_loop (sorted_reverse indices) (archived_lists st)
       = (archived_lists st, 0)
       ∧ GroceryManager.delete_multiple_archives indices st
         = ((false, if indices is [] then NoArchivesSelected
                    else NoValidArchives), st)).
Proof.
  assert (Hsort : ∀ indices,
    sorted_reverse indices ≡ₚ indices
    ∧ StronglySorted desc (sorted_reverse indices)).
  { intros indices. split.
    - apply merge_sort_Permutation.
    - apply StronglySorted_merge_sort; apply _. }
  split; [exact Hsort|]. split; [|split].
  - intros st a b c Hring. unfold GroceryManager.delete_multiple_archives.
    rewrite Hring. reflexivity.
  - intros st indices Hne Hnd ring' n.
    destruct (Hsort indices) as [Hperm Hsorted].
    unfold GroceryManager.delete_multiple_archives.
    destruct indices as [|k0 ks0]; [contradiction|].
    set (indices := k0 :: ks0) in *.
    assert (Hring : (delete_loop (sorted_reverse indices)
                       (archived_lists st)).1 = ring').
    { unfold delete_loop. rewrite delete_loop_descending.
      - apply without_indices_ext. intros p _. rewrite Hperm. reflexivity.
      - exact Hsorted.
      - rewrite Hperm. exact Hnd. }
    assert (Hcount : (delete_loop (sorted_reverse indices)
                        (archived_lists st)).2 = n).
    { unfold delete_loop in *. rewrite delete_loop_count, Hring.
      unfold n. lia. }
    cbv zeta. rewrite Hcount, Hring. reflexivity.
  - intros st indices Hoob.
    assert (Hloop : delete_loop (sorted_reverse indices) (archived_lists st)
                    = (archived_lists st, 0)).
    { unfold delete_loop. apply delete_loop_out_of_bounds.
      destruct (Hsort indices) as [Hperm _]. rewrite Hperm. exact Hoob. }
    split; [exact Hloop|].
    unfold GroceryManager.delete_multiple_archives.
    destruct indices as [|k0 ks0]; [reflexivity|].
    rewrite Hloop. reflexivity.
Qed.

(** The indices have to be distinct: a repeated index deletes the archive
    that moved into its place. *)
Example delete_multiple_archives_repeated_index :
  archived_lists
    (GroceryManager.delete_multiple_archives [1; 1] Sample.three_trips).2
  = [Sample.trip Sample.trader_joes Sample.avocados "2025-01-03"].
Proof. reflexivity. Qed.

Lemma delete_multiple_archives_by_index_witness :
  GroceryManager.delete_multiple_archives [0; 2] Sample.three_trips
  = ((true, DeletedArchives 2),
     GroceryManager.force_save
       (set_archived_lists
          [Sample.trip Sample.safeway Sample.chicken "2025-01-02"]
          Sample.three_trips)).
Proof.
  apply (proj1 (proj2 delete_multiple_archives_by_index) Sample.three_trips
           (Sample.trip Sample.trader_joes Sample.avocados "2025-01-03")
           (Sample.trip Sample.safeway Sample.chicken "2025-01-02")
           (Sample.trip Sample.trader_joes Sample.bananas "2025-01-01")).
  reflexivity.
Defined.

(** ** Updating a quantity *)

(** C6, as the code has it. [GroceryManager.update_quantity] checks the id
    only: without a cart entry for the id it returns [False] and leaves the
    manager unchanged; otherwise it overwrites the quantity of the first
    entry with the id, whatever the new quantity, and leaves the other
    entries unchanged. The check of the quantity is made by
    [update_item_quantity] of the interface, on the trimmed id: a blank id, a
    quantity below 1 or a trimmed id without cart entry is reported by a
    message and leaves the manager unchanged; otherwise the quantity of the
    first entry with the trimmed id is overwritten and the other entries are
    unchanged. *)
Theorem update_quantity_by_layer :
  ∀ (i : str) (q : Z) (st : state),
    (Forall (λ e, entry_id e ≠ i) (shopping_list st) →
     GroceryManager.update_quantity i q st = (false, st))
    ∧ (∀ l1 e l2,
         shopping_list st = l1 ++ e :: l2 → entry_id e = i →
         Forall (λ e, entry_id e ≠ i) l1 →
         GroceryManager.update_quantity i q st
         = (true, GroceryManager._schedule_save
                    (set_shopping_list (l1 ++ Entry (entry_item e) q :: l2)
                       st)))
    ∧ (strip i = [] →
       App.update_item_quantity i q st = (PleaseEnterItemID, st))
    ∧ (strip i ≠ [] → q < 1 →
       App.update_item_quantity i q st = (QuantityAtLeastOne, st))
    ∧ (strip i ≠ [] → 1 ≤ q →
       Forall (λ e, entry_id e ≠ strip i) (shopping_list st) →
       App.update_item_quantity i q st = (ItemNotFoundInCart i, st))
    ∧ (strip i ≠ [] → 1 ≤ q →
       ∀ l1 e l2,
         shopping_list st = l1 ++ e :: l2 → entry_id e = strip i →
         Forall (λ e, entry_id e ≠ strip i) l1 →
         App.update_item_quantity i q st
         = (UpdatedQuantityFromTo (item_name (entry_item e)) (quantity e) q,
            set_shopping_list (l1 ++ Entry (entry_item e) q :: l2) st)).
Proof.
  intros i q st.
  assert (Hblank : strip i ≠ [] →
    bool_decide (i = []) || bool_decide (strip i = []) = false).
  { intros Hi. rewrite (bool_decide_eq_false_2 (strip i = [])) by exact Hi.
    rewrite bool_decide_eq_false_2; [reflexivity|].
    intros ->. apply Hi. reflexivity. }
  repeat split.
  - intros Hl. unfold GroceryManager.update_quantity.
    apply (update_first_None i (set_quantity q)) in Hl. rewrite Hl.
    reflexivity.
  - intros l1 e l2 Hcart He Hl1. unfold GroceryManager.update_quantity.
    assert (E : update_first i (set_quantity q) (shopping_list st)
                = Some (e, l1 ++ set_quantity q e :: l2)).
    { apply update_first_Some. exists l1, l2. auto. }
    rewrite E. reflexivity.
  - intros Hi. unfold App.update_item_quantity.
    rewrite (bool_decide_eq_true_2 (strip i = [])) by exact Hi.
    rewrite orb_true_r. reflexivity.
  - intros Hi Hq. unfold App.update_item_quantity.
    rewrite (Hblank Hi). apply Z.ltb_lt in Hq. rewrite Hq. reflexivity.
  - intros Hi Hq Hl. unfold App.update_item_quantity.
    rewrite (Hblank Hi). apply Z.ltb_ge in Hq. rewrite Hq.
    apply (update_first_None (strip i) (set_quantity q)) in Hl. rewrite Hl.
    reflexivity.
  - intros Hi Hq l1 e l2 Hcart He Hl1. unfold App.update_item_quantity.
    rewrite (Hblank Hi). apply Z.ltb_ge in Hq. rewrite Hq.
    assert (E : update_first (strip i) (set_quantity q) (shopping_list st)
                = Some (e, l1 ++ set_quantity q e :: l2)).
    { apply update_first_Some. exists l1, l2. auto. }
    rewrite E. reflexivity.
Qed.

(** C6 fails as stated on [GroceryManager.update_quantity]: with the new
    quantity 0 the call succeeds and the cart entry gets the quantity 0. *)
Lemma update_quantity_accepts_zero :
  let r := GroceryManager.update_quantity (lit "tj-1") 0 Sample.stocked in
  shopping_list r.2
  = [Entry Sample.bananas 0; Entry Sample.chicken 1; Entry Sample.avocados 3]
  ∧ ¬ (0 < 1 ∨ Forall (λ e, entry_id e ≠ lit "tj-1")
                 (shopping_list Sample.stocked) →
       r.1 = false ∧ shopping_list r.2 = shopping_list Sample.stocked).
Proof.
  split; [reflexivity|].
  intros Hclaim. destruct Hclaim as [Hfalse _]; [left; lia|].
  vm_compute in Hfalse. discriminate.
Qed.

Lemma update_quantity_by_layer_witness :
  GroceryManager.update_quantity (lit "tj-2") 0 Sample.stocked
  = (true,
     GroceryManager._schedule_save
       (set_shopping_list
          ([Entry Sample.bananas 2; Entry Sample.chicken 1]
           ++ Entry Sample.avocados 0 :: []) Sample.stocked))
  ∧ App.update_item_quantity (lit " tj-2 ") 0 Sample.stocked
    = (QuantityAtLeastOne, Sample.stocked)
  ∧ App.update_item_quantity (lit " tj-2 ") 5 Sample.stocked
    = (UpdatedQuantityFromTo (lit "Avocados") 3 5,
       set_shopping_list
         ([Entry Sample.bananas 2; Entry Sample.chicken 1]
          ++ Entry Sample.avocados 5 :: []) Sample.stocked).
Proof.
  destruct (update_quantity_by_layer (lit "tj-2") 0 Sample.stocked)
    as (_ & Hmanager & _).
  destruct (update_quantity_by_layer (lit " tj-2 ") 0 Sample.stocked)
    as (_ & _ & _ & Hbelow & _).
  destruct (update_quantity_by_layer (lit " tj-2 ") 5 Sample.stocked)
    as (_ & _ & _ & _ & _ & Hupdate).
  split; [|split].
  - apply (Hmanager [Entry Sample.bananas 2; Entry Sample.chicken 1]
             (Entry Sample.avocados 3) []).
    + reflexivity.
    + reflexivity.
    + repeat constructor; vm_compute; discriminate.
  - apply Hbelow.
    + vm_compute. discriminate.
    + lia.
  - apply (Hupdate ltac:(vm_compute; discriminate) ltac:(lia)
             [Entry Sample.bananas 2; Entry Sample.chicken 1]
             (Entry Sample.avocados 3) []).
    + reflexivity.
    + reflexivity.
    + repeat constructor; vm_compute; discriminate.
Defined.

(** ** Editing a catalog item *)

Lemma update_first_item_find i f l :
  match find_item i l with
  | None => update_first_item i f l = None
  | Some x =>
      ∃ l1 l2, l = l1 ++ x :: l2
               ∧ Forall (λ y, item_id y ≠ i) l1
               ∧ update_first_item i f l = Some (l1 ++ f x :: l2)
  end.
Proof.
  induction l as [|y l IH]; simpl; [reflexivity|].
  destruct (decide (item_id y = i)) as [Hy|Hy].
  - exists [], l. repeat split. constructor.
  - destruct (find_item i l) as [x|].
    + destruct IH as (l1 & l2 & -> & Hl1 & ->).
      exists (y :: l1), l2. repeat split. constructor; assumption.
    + rewrite IH. reflexivity.
Qed.

Lemma update_first_in_stores_find i f d :
  match find_in_stores i d with
  | None => update_first_in_stores i f d = None
  | Some x =>
      ∃ d1 k l1 l2 d2,
        d = d1 ++ (k, l1 ++ x :: l2) :: d2
        ∧ Forall (λ kl, find_item i kl.2 = None) d1
        ∧ Forall (λ y, item_id y ≠ i) l1
        ∧ update_first_in_stores i f d
          = Some (d1 ++ (k, l1 ++ f x :: l2) :: d2)
  end.
Proof.
  induction d as [|[k l] d IH]; simpl; [reflexivity|].
  pose proof (update_first_item_find i f l) as Hl.
  destruct (find_item i l) as [x|] eqn:E.
  - destruct Hl as (l1 & l2 & -> & Hl1 & ->).
    exists [], k, l1, l2, d. repeat split; auto.
  - rewrite Hl. destruct (find_in_stores i d) as [x|].
    + destruct IH as (d1 & k' & l1 & l2 & d2 & -> & Hd1 & Hl1 & ->).
      exists ((k, l) :: d1), k', l1, l2, d2. repeat split; auto.
    + rewrite IH. reflexivity.
Qed.

Lemma map_patch_entry_absent i name category price unit l :
  Forall (λ e, entry_id e ≠ i) l →
  map (patch_entry i name category price unit) l = l.
Proof.
  induction 1 as [|e l He _ IH]; simpl; [reflexivity|].
  rewrite IH. unfold patch_entry.
  destruct (decide (entry_id e = i)); [contradiction | reflexivity].
Qed.

(** C7. For an id found in the catalog, [update_catalog_item] replaces the
    first catalog item with that id, in iteration order, by the item with
    the provided fields overwritten (the other fields, the other items and
    the stores as they were), and overwrites the same fields, with the same
    values, in every cart entry with that id, quantities and other entries
    unchanged; a cart without entry for the id is unchanged. For an id
    found in no store the call returns [False] and the manager is
    unchanged. *)
Theorem update_catalog_item_syncs_cart :
  ∀ (i : str) (name category : option str) (price : option Q)
    (unit : option str) (st : state),
    let edit := patch name category price unit in
    (∀ x, item_id (edit x) = item_id x
          ∧ item_name (edit x) = default (item_name x) name
          ∧ item_category (edit x) = default (item_category x) category
          ∧ item_price (edit x) = default (item_price x) price
          ∧ item_unit (edit x) = default (item_unit x) unit
          ∧ item_store (edit x) = item_store x
          ∧ item_default_quantity (edit x) = item_default_quantity x)
    ∧ (find_in_stores i (stores st) = None →
       GroceryManager.update_catalog_item i name category price unit st
       = (false, st))
    ∧ (∀ x, find_in_stores i (stores st) = Some x →
         ∃ d1 k l1 l2 d2,
           stores st = d1 ++ (k, l1 ++ x :: l2) :: d2
           ∧ Forall (λ kl, find_item i kl.2 = None) d1
           ∧ Forall (λ y, item_id y ≠ i) l1
           ∧ GroceryManager.update_catalog_item i name category price unit st
             = (true,
                GroceryManager._schedule_save
                  (set_shopping_list
                     (map (λ e, if decide (entry_id e = i)
                                then Entry (edit (entry_item e)) (quantity e)
                                else e)
                        (shopping_list st))
                     (set_stores (d1 ++ (k, l1 ++ edit x :: l2) :: d2) st)))
           ∧ (Forall (λ e, entry_id e ≠ i) (shopping_list st) →
              shopping_list
                (GroceryManager.update_catalog_item i name category price
                   unit st).2
              = shopping_list st)).
Proof.
  intros i name category price unit st edit.
  pose proof (update_first_in_stores_find i edit (stores st)) as Hfind.
  split; [|split].
  - intros x. repeat split.
  - intros Hnone. rewrite Hnone in Hfind.
    unfold GroceryManager.update_catalog_item. fold edit. rewrite Hfind.
    reflexivity.
  - intros x Hx. rewrite Hx in Hfind.
    destruct Hfind as (d1 & k & l1 & l2 & d2 & Hd & Hd1 & Hl1 & Hupd).
    exists d1, k, l1, l2, d2.
    unfold GroceryManager.update_catalog_item. fold edit. rewrite Hupd.
    repeat split; auto.
    intros Habsent. simpl.
    apply map_patch_entry_absent, Habsent.
Qed.

Lemma update_catalog_item_syncs_cart_witness :
  let edit := patch None None (Some (2 # 1)) None in
  ∃ d1 k l1 l2 d2,
    stores Sample.stocked = d1 ++ (k, l1 ++ Sample.avocados :: l2) :: d2
    ∧ Forall (λ kl, find_item (lit "tj-2") kl.2 = None) d1
    ∧ Forall (λ y, item_id y ≠ lit "tj-2") l1
    ∧ GroceryManager.update_catalog_item (lit "tj-2") None None
        (Some (2 # 1)) None Sample.stocked
      = (true,
         GroceryManager._schedule_save
           (set_shopping_list
              (map (λ e, if decide (entry_id e = lit "tj-2")
                         then Entry (edit (entry_item e)) (quantity e)
                         else e)
                 (shopping_list Sample.stocked))
              (set_stores (d1 ++ (k, l1 ++ edit Sample.avocados :: l2) :: d2)
                 Sample.stocked)))
    ∧ (Forall (λ e, entry_id e ≠ lit "tj-2") (shopping_list Sample.stocked) →
       shopping_list
         (GroceryManager.update_catalog_item (lit "tj-2") None None
            (Some (2 # 1)) None Sample.stocked).2
       = shopping_list Sample.stocked).
Proof.
  exact (proj2 (proj2 (update_catalog_item_syncs_cart (lit "tj-2") None None
                         (Some (2 # 1)) None Sample.stocked))
           Sample.avocados eq_refl).
Defined.

(** ** Adding a catalog item *)

Lemma existsb_bool_decide {A} (P : A → Prop) `{∀ x, Decision (P x)}
    (l : list A) :
  existsb (λ x, bool_decide (P x)) l = true ↔ ∃ x, x ∈ l ∧ P x.
Proof.
  rewrite existsb_exists. split; intros (x & Hx & HP); exists x.
  - apply list_elem_of_In in Hx. apply bool_decide_eq_true in HP. auto.
  - apply list_elem_of_In in Hx. split; [exact Hx|].
    apply bool_decide_eq_true. exact HP.
Qed.

Section AddCatalogItem.

Context `{PyBuiltins}.

Lemma add_catalog_item_valid store_name name category price unit st :
  name ≠ [] → category ≠ [] → (0 < price)%Q →
  App.add_catalog_item store_name name category price unit st
  = let name_normalized := App.normalize_text (strip name) in
    let store_items := stores_get store_name (stores st) in
    if existsb (λ x, bool_decide (lower (item_name x)
                                  = lower name_normalized)) store_items
    then Returns (AlreadyExists name_normalized store_name, st)
    else
      let prefix := remove_char 32%N (lower (take 2 store_name)) in
      let new_id :=
        prefix ++ lit "-"
        ++ str_of_int (App.max_id prefix store_items + 1) in
      let new_item :=
        Item new_id name_normalized (App.normalize_text (strip category))
             (Some store_name) price (strip unit) None in
      match stores_append store_name new_item (stores st) with
      | None => Raises (KeyError store_name)
      | Some d' =>
          Returns (AddedToCatalog name_normalized store_name,
                   GroceryManager._schedule_save (set_stores d' st))
      end.
Proof.
  intros Hname Hcategory Hprice. unfold App.add_catalog_item.
  rewrite (bool_decide_eq_false_2 (name = [])) by exact Hname.
  rewrite (bool_decide_eq_false_2 (category = [])) by exact Hcategory.
  destruct (Qle_bool price 0) eqn:E; [|reflexivity].
  apply Qle_bool_iff in E. destruct (Qlt_not_le _ _ Hprice E).
Qed.

(** C8. With valid fields, [add_catalog_item] rejects the item as a
    duplicate exactly when the store has an item whose lower-cased name is
    the lower-cased normalized new name, the normalized name being the
    trimmed name after NFKD decomposition, removal of the combining
    characters and trimming. A name that normalizes to "Cafe" is rejected
    when the store has an item "Cafe", and "Café" normalizes to "Cafe": its
    decomposition ends in the combining acute accent. *)
Theorem add_catalog_item_rejects_duplicate_name :
  (∀ store_name name category price unit st,
     name ≠ [] → category ≠ [] → (0 < price)%Q →
     App.normalize_text (strip name)
     = (if strip name is [] then []
        else strip (filter (λ c, combining c = 0)
                      (normalize_NFKD (strip name))))
     ∧ (App.add_catalog_item store_name name category price unit st
        = Returns (AlreadyExists (App.normalize_text (strip name)) store_name,
                   st)
        ↔ ∃ x, x ∈ stores_get store_name (stores st)
               ∧ lower (item_name x)
                 = lower (App.normalize_text (strip name))))
  ∧ (∀ store_name name category price unit st x,
       name ≠ [] → category ≠ [] → (0 < price)%Q →
       x ∈ stores_get store_name (stores st) → item_name x = lit "Cafe" →
       App.normalize_text (strip name) = lit "Cafe" →
       App.add_catalog_item store_name name category price unit st
       = Returns (AlreadyExists (lit "Cafe") store_name, st))
  ∧ (normalize_NFKD cafe_acute = cafe_decomposed →
     combining 769%N ≠ 0 →
     Forall (λ c, combining c = 0) (lit "Cafe") →
     App.normalize_text (strip cafe_acute) = lit "Cafe").
Proof.
  assert (Hiff : ∀ store_name name category price unit st,
    name ≠ [] → category ≠ [] → (0 < price)%Q →
    App.add_catalog_item store_name name category price unit st
    = Returns (AlreadyExists (App.normalize_text (strip name)) store_name, st)
    ↔ ∃ x, x ∈ stores_get store_name (stores st)
           ∧ lower (item_name x) = lower (App.normalize_text (strip name))).
  { intros store_name name category price unit st Hn Hc Hp.
    rewrite (add_catalog_item_valid _ _ _ _ _ _ Hn Hc Hp). cbv zeta.
    rewrite <- (existsb_bool_decide
                  (λ x, lower (item_name x)
                        = lower (App.normalize_text (strip name)))).
    destruct (existsb _ _); [split; reflexivity|].
    split; [|discriminate].
    destruct (stores_append _ _ _); discriminate. }
  split; [|split].
  - intros store_name name category price unit st Hn Hc Hp.
    split; [|apply Hiff; assumption].
    unfold App.normalize_text. destruct (strip name); reflexivity.
  - intros store_name name category price unit st x Hn Hc Hp Hx Hcafe Hnorm.
    rewrite <- Hnorm. apply Hiff; try assumption.
    exists x. split; [exact Hx|]. rewrite Hcafe, Hnorm. reflexivity.
  - intros Hnfkd Hacute Hascii.
    change (strip cafe_acute) with cafe_acute.
    unfold App.normalize_text, cafe_acute at 1. rewrite Hnfkd.
    unfold cafe_decomposed.
    change (lit "Cafe") with [67; 97; 102; 101]%N in *.
    repeat (apply Forall_cons in Hascii as [? Hascii]).
    cbn [filter list_filter].
    repeat (rewrite decide_True by assumption).
    rewrite decide_False by assumption.
    reflexivity.
Qed.

End AddCatalogItem.

Lemma add_catalog_item_rejects_duplicate_name_witness :
  @App.add_catalog_item Sample.builtins Sample.trader_joes cafe_acute
    (lit "Beverages") (4 # 1) (lit "each") Sample.with_cafe
  = Returns (AlreadyExists (lit "Cafe") Sample.trader_joes, Sample.with_cafe).
Proof.
  destruct (@add_catalog_item_rejects_duplicate_name Sample.builtins)
    as (_ & Hcafe & Hnorm).
  apply (Hcafe Sample.trader_joes cafe_acute (lit "Beverages") (4 # 1)
           (lit "each") Sample.with_cafe Sample.cafe).
  - discriminate.
  - vm_compute. discriminate.
  - reflexivity.
  - right. left.
  - reflexivity.
  - apply Hnorm.
    + reflexivity.
    + discriminate.
    + repeat constructor.
Defined.

Lemma archive_ring_capacity_witness :
  (length (archived_lists Sample.full_ring) ≤ max_archives)%nat
  ∧ ∃ oldest,
      archived_lists Sample.full_ring
      = take 5 (archived_lists Sample.full_ring) ++ [oldest]
      ∧ archived_lists
          (GroceryManager.archive_and_restart (Some Sample.safeway)
             Sample.now Sample.full_ring).2
        = GroceryManager.archive_entry (Some Sample.safeway) Sample.now
            Sample.full_ring
          :: take 5 (archived_lists Sample.full_ring).
Proof.
  destruct archive_ring_capacity as (_ & Hreach & _ & Harchive).
  split.
  - apply Hreach. unfold Sample.full_ring.
    apply reachable_run, reachable_run_all, reachable_init; reflexivity.
  - destruct (Harchive (Some Sample.safeway) Sample.now Sample.full_ring)
      as (_ & _ & Hfull).
    + vm_compute. discriminate.
    + apply Hfull. reflexivity.
Defined.

(** ** The budget report *)

Lemma Qlt_bool_iff a b : Qlt_bool a b = true ↔ (a < b)%Q.
Proof.
  unfold Qlt_bool. rewrite negb_true_iff. split.
  - intros E. apply Qnot_le_lt. intros Hle.
    apply Qle_bool_iff in Hle. congruence.
  - intros Hlt. destruct (Qle_bool b a) eqn:E; [|reflexivity].
    apply Qle_bool_iff in E. destruct (Qlt_not_le _ _ Hlt E).
Qed.

Lemma Qlt_bool_false a b : (b <= a)%Q → Qlt_bool a b = false.
Proof.
  intros Hle. unfold Qlt_bool. apply Qle_bool_iff in Hle. rewrite Hle.
  reflexivity.
Qed.

Lemma truediv_positive a b : (0 < b)%Q → truediv a b = Some (a / b)%Q.
Proof.
  intros Hb. unfold truediv. destruct (Qeq_bool b 0) eqn:E; [|reflexivity].
  apply Qeq_bool_iff in E. rewrite E in Hb. destruct (Qlt_irrefl _ Hb).
Qed.

(** C10. Both budget reports return for every manager: with a budget of
    zero or below the quotient is not formed, although forming it at budget
    zero would raise, and the percentage, the reported percentage and the
    ratio are 0; with a budget above zero the percentage is
    total / budget * 100, which the report of the manager rounds to one
    decimal, and the ratio of the interface is spent / budget. *)
Theorem get_budget_status_never_divides_by_zero :
  ∀ st : state,
    let total := GroceryManager.get_total_cost st in
    let spent := sum_cost (shopping_list st) in
    (∃ percentage r,
       GroceryManager.percentage_of total (budget st) = Some percentage
       ∧ GroceryManager.get_budget_status st = Some r
       ∧ GroceryManager.bs_percentage r = round percentage 1
       ∧ ((budget st <= 0)%Q →
          percentage = 0%Q ∧ GroceryManager.bs_percentage r = 0%Q)
       ∧ ((0 < budget st)%Q → percentage = (total / budget st * 100)%Q))
    ∧ (∃ status warning ratio,
         App.get_budget_status st = Some (status, warning, ratio)
         ∧ ((budget st <= 0)%Q → ratio = 0%Q)
         ∧ ((0 < budget st)%Q → ratio = (spent / budget st)%Q))
    ∧ ((budget st == 0)%Q →
       truediv total (budget st) = None ∧ truediv spent (budget st) = None).
Proof.
  intros st total spent.
  destruct (Qlt_le_dec 0 (budget st)) as [Hpos|Hneg].
  - pose proof (proj2 (Qlt_bool_iff 0 (budget st)) Hpos) as Hguard.
    split; [|split].
    + exists (total / budget st * 100)%Q. eexists.
      unfold GroceryManager.get_budget_status, GroceryManager.percentage_of.
      fold total. rewrite Hguard, (truediv_positive _ _ Hpos). simpl.
      split; [reflexivity|]. split; [reflexivity|]. split; [reflexivity|].
      split; [|reflexivity].
      intros Hle. destruct (Qlt_not_le _ _ Hpos Hle).
    + unfold App.get_budget_status. fold spent.
      rewrite Hguard, (truediv_positive _ _ Hpos). simpl.
      eexists _, _, _. split; [reflexivity|]. split; [|reflexivity].
      intros Hle. destruct (Qlt_not_le _ _ Hpos Hle).
    + intros Hzero. rewrite Hzero in Hpos. destruct (Qlt_irrefl _ Hpos).
  - pose proof (Qlt_bool_false 0 (budget st) Hneg) as Hguard.
    split; [|split].
    + exists 0%Q. eexists.
      unfold GroceryManager.get_budget_status, GroceryManager.percentage_of.
      fold total. rewrite Hguard. simpl.
      split; [reflexivity|]. split; [reflexivity|]. split; [reflexivity|].
      split; [intros _; split; reflexivity|].
      intros Hlt. destruct (Qlt_not_le _ _ Hlt Hneg).
    + unfold App.get_budget_status. fold spent. rewrite Hguard. simpl.
      eexists _, _, _. split; [reflexivity|]. split; [reflexivity|].
      intros Hlt. destruct (Qlt_not_le _ _ Hlt Hneg).
    + intros Hzero. unfold truediv.
      apply Qeq_bool_iff in Hzero. rewrite Hzero. split; reflexivity.
Qed.

Lemma get_budget_status_never_divides_by_zero_witness :
  GroceryManager.percentage_of (GroceryManager.get_total_cost Sample.stocked)
    (budget Sample.stocked)
  = Some (GroceryManager.get_total_cost Sample.stocked / 750 * 100)%Q
  ∧ GroceryManager.percentage_of
      (GroceryManager.get_total_cost Sample.no_budget)
      (budget Sample.no_budget) = Some 0%Q
  ∧ truediv (GroceryManager.get_total_cost Sample.no_budget)
      (budget Sample.no_budget) = None.
Proof.
  destruct (get_budget_status_never_divides_by_zero Sample.stocked)
    as ((p & r & Hp & _ & _ & _ & Hpos) & _ & _).
  destruct (get_budget_status_never_divides_by_zero Sample.no_budget)
    as ((p0 & r0 & Hp0 & _ & _ & Hzero & _) & _ & Hraise).
  split; [|split].
  - rewrite Hp. f_equal. apply Hpos. reflexivity.
  - rewrite Hp0. f_equal. apply Hzero. discriminate.
  - apply Hraise. reflexivity.
Defined.

(** * Further properties of the manager and of the interface helpers *)

(** ** Restoring the archive of one store *)

Lemma archive_entry_items_store (s : str) now st :
  s ≠ [] →
  Forall (λ e, entry_store e = Some s)
    (arch_items (GroceryManager.archive_entry (Some s) now st)).
Proof.
  intros Hs. unfold GroceryManager.archive_entry. cbn [arch_items].
  unfold GroceryManager.store_items. rewrite (truthy_Some s Hs).
  apply Forall_forall. intros e [He _]%list_elem_of_filter. exact He.
Qed.

(** X1. An index outside the ring makes [restore_from_archive] fail with
    the manager unchanged, and no restore changes the ring. At an index of
    the ring whose archive is labelled with a store name, the call succeeds
    and the cart becomes the entries of the other stores, in their order,
    followed by the archived entries; when the archived entries are all of
    that store (as in an archive made for that store), the cart then holds
    for the store exactly the archived entries and for every other store
    what it held. *)
Theorem restore_from_archive_replaces_store :
  ∀ (k : Z) (st : state),
    let r := GroceryManager.restore_from_archive k st in
    (k < 0 ∨ Z.of_nat (length (archived_lists st)) ≤ k →
     r = ((false, InvalidArchiveIndex), st))
    ∧ archived_lists r.2 = archived_lists st
    ∧ (∀ a (s : str),
         0 ≤ k → archived_lists st !! Z.to_nat k = Some a →
         arch_store a = Some s → s ≠ [] →
         r.1.1 = true
         ∧ shopping_list r.2
           = filter (λ e, entry_store e ≠ Some s) (shopping_list st)
             ++ arch_items a
         ∧ (Forall (λ e, entry_store e = Some s) (arch_items a) →
            entries_of s (shopping_list r.2) = arch_items a
            ∧ ∀ t, t ≠ Some s →
                filter (λ e, entry_store e = t) (shopping_list r.2)
                = filter (λ e, entry_store e = t) (shopping_list st))).
Proof.
  intros k st r. split; [|split].
  - apply restore_from_archive_out_of_bounds.
  - apply restore_from_archive_ring.
  - intros a s Hk Ha Hstore Hs.
    assert (Hr : r = ((true, RestoredItems (length (arch_items a))
                              (arch_date_label a)),
                      GroceryManager._schedule_save
                        (set_shopping_list
                           (filter (λ e, entry_store e ≠ Some s)
                              (shopping_list st) ++ arch_items a) st))).
    { unfold r. rewrite (restore_from_archive_in_bounds k a st Hk Ha).
      rewrite Hstore, (truthy_Some s Hs). reflexivity. }
    rewrite Hr. cbn [fst snd]. split; [reflexivity|].
    split; [reflexivity|]. intros Hitems. cbn [shopping_list
      GroceryManager._schedule_save set_save_pending set_shopping_list].
    split.
    + unfold entries_of. rewrite filter_app, filter_filter_none by auto.
      apply Forall_filter_all, Hitems.
    + intros t Ht. rewrite filter_app.
      rewrite (Forall_filter_nil (λ e, entry_store e = t) (arch_items a)).
      * rewrite app_nil_r, !list_filter_filter. apply list_filter_iff.
        intros e. split; [tauto | intros ->; auto].
      * eapply Forall_impl; [exact Hitems|]. intros e He Het.
        apply Ht. congruence.
Qed.

Lemma restore_from_archive_replaces_store_witness :
  let r := GroceryManager.restore_from_archive 1 Sample.three_trips in
  r.1.1 = true
  ∧ shopping_list r.2 = [Entry Sample.chicken 1]
  ∧ GroceryManager.restore_from_archive 3 Sample.three_trips
    = ((false, InvalidArchiveIndex), Sample.three_trips).
Proof.
  destruct (restore_from_archive_replaces_store 1 Sample.three_trips)
    as (_ & _ & Hin).
  destruct (restore_from_archive_replaces_store 3 Sample.three_trips)
    as (Hout & _).
  destruct (Hin (Sample.trip Sample.safeway Sample.chicken "2025-01-02")
              Sample.safeway) as (Hok & Hcart & _).
  - lia.
  - reflexivity.
  - reflexivity.
  - vm_compute. discriminate.
  - split; [exact Hok|]. split; [exact Hcart|].
    apply Hout. right. simpl. lia.
Defined.

(** X2. Restoring the archive of a store twice in a row gives the cart of
    restoring it once: the second restore removes what the first one
    inserted and inserts it again. *)
Theorem restore_from_archive_twice :
  ∀ (k : Z) (st : state) (a : archive) (s : str),
    0 ≤ k → archived_lists st !! Z.to_nat k = Some a →
    arch_store a = Some s → s ≠ [] →
    Forall (λ e, entry_store e = Some s) (arch_items a) →
    let st1 := (GroceryManager.restore_from_archive k st).2 in
    shopping_list (GroceryManager.restore_from_archive k st1).2
    = shopping_list st1.
Proof.
  intros k st a s Hk Ha Hstore Hs Hitems st1.
  assert (Hcart : ∀ st0,
    archived_lists st0 !! Z.to_nat k = Some a →
    shopping_list (GroceryManager.restore_from_archive k st0).2
    = filter (λ e, entry_store e ≠ Some s) (shopping_list st0)
      ++ arch_items a).
  { intros st0 Ha0.
    rewrite (restore_from_archive_in_bounds k a st0 Hk Ha0).
    rewrite Hstore, (truthy_Some s Hs). reflexivity. }
  assert (Ha1 : archived_lists st1 !! Z.to_nat k = Some a).
  { unfold st1. rewrite restore_from_archive_ring. exact Ha. }
  rewrite (Hcart st1 Ha1). unfold st1 at 2. rewrite (Hcart st Ha).
  unfold st1. rewrite (Hcart st Ha), filter_app.
  rewrite (filter_filter_same (λ e, entry_store e ≠ Some s)
             (λ e, entry_store e ≠ Some s)) by auto.
  rewrite (Forall_filter_nil (λ e, entry_store e ≠ Some s) (arch_items a)).
  - rewrite app_nil_r. reflexivity.
  - eapply Forall_impl; [exact Hitems|]. intros e He Hne. exact (Hne He).
Qed.

Lemma restore_from_archive_twice_witness :
  let st1 := (GroceryManager.restore_from_archive 1 Sample.three_trips).2 in
  shopping_list (GroceryManager.restore_from_archive 1 st1).2
  = shopping_list st1.
Proof.
  apply (restore_from_archive_twice 1 Sample.three_trips
           (Sample.trip Sample.safeway Sample.chicken "2025-01-02")
           Sample.safeway).
  - lia.
  - reflexivity.
  - reflexivity.
  - vm_compute. discriminate.
  - repeat constructor.
Defined.

(** ** Removing from the cart *)

Lemma pop_first_None i l :
  pop_first i l = None ↔ Forall (λ e, entry_id e ≠ i) l.
Proof.
  induction l as [|e l IH]; simpl.
  - split; [constructor | reflexivity].
  - destruct (decide (entry_id e = i)) as [He|He].
    + split; [discriminate|]. intros [Hne _]%Forall_cons. contradiction.
    + destruct (pop_first i l) as [[e0 r]|]; simpl.
      * split; [discriminate|]. intros [_ Hl]%Forall_cons.
        apply IH in Hl. discriminate.
      * split; [|reflexivity]. intros _. constructor; [exact He|].
        apply IH. reflexivity.
Qed.

Lemma pop_first_Some i l e0 l' :
  pop_first i l = Some (e0, l') →
  ∃ l1 l2, l = l1 ++ e0 :: l2 ∧ l' = l1 ++ l2
           ∧ entry_id e0 = i ∧ Forall (λ e, entry_id e ≠ i) l1.
Proof.
  revert l'. induction l as [|e l IH]; intros l'; simpl; [discriminate|].
  destruct (decide (entry_id e = i)) as [He|He].
  - intros [= <- <-]. exists [], l. repeat split; auto.
  - destruct (pop_first i l) as [[e1 r]|] eqn:E; simpl; [|discriminate].
    intros [= <- <-].
    destruct (IH r eq_refl) as (l1 & l2 & -> & -> & Hi & Hl1).
    exists (e :: l1), l2. repeat split; auto.
Qed.

(** In a cart with distinct ids the entries after the first hit do not
    have its id. *)
Lemma unique_ids_after i l1 e0 l2 :
  entry_id e0 = i → unique_ids (l1 ++ e0 :: l2) →
  Forall (λ e, entry_id e ≠ i) l2.
Proof.
  intros Hi Hnd. unfold unique_ids in Hnd.
  rewrite fmap_app, fmap_cons in Hnd.
  apply NoDup_app in Hnd as (_ & _ & [Hnotin _]%NoDup_cons).
  apply Forall_forall. intros e He Heq. apply Hnotin.
  apply list_elem_of_fmap. exists e. split; [congruence | exact He].
Qed.

(** X3. After [add_to_shopping_list] for an id, [remove_from_shopping_list]
    for the same id leaves the cart without any entry for the id and with
    its other entries as before the addition, in their order; when the cart
    had no entry for the id, the two calls give back the cart. *)
Theorem add_then_remove :
  ∀ (i : str) (q : Z) (st : state),
    let st' := GroceryManager.remove_from_shopping_list i
                 (GroceryManager.add_to_shopping_list i q st).2 in
    shopping_list st'
    = filter (λ e, entry_id e ≠ i) (shopping_list st)
    ∧ (Forall (λ e, entry_id e ≠ i) (shopping_list st) →
       shopping_list st' = shopping_list st).
Proof.
  intros i q st st'.
  assert (Hcart : shopping_list st'
                  = filter (λ e, entry_id e ≠ i) (shopping_list st)).
  { unfold st', GroceryManager.remove_from_shopping_list,
      GroceryManager.add_to_shopping_list.
    destruct (find_in_stores i (stores st)) as [x|] eqn:Ex; [|reflexivity].
    destruct (update_first i (add_quantity q) (shopping_list st))
      as [[e0 l']|] eqn:E; simpl.
    - apply update_first_Some in E as (l1 & l2 & -> & -> & Hi & _).
      rewrite !filter_app, !filter_cons.
      rewrite add_quantity_id, Hi.
      destruct (decide (i ≠ i)); [contradiction | reflexivity].
    - rewrite filter_app, filter_cons, filter_nil.
      replace (entry_id (Entry x q)) with i
        by (symmetry; exact (find_in_stores_id _ _ _ Ex)).
      destruct (decide (i ≠ i)); [contradiction|]. apply app_nil_r. }
  split; [exact Hcart|].
  intros Hfresh. rewrite Hcart. apply Forall_filter_all, Hfresh.
Qed.

Lemma add_then_remove_witness :
  shopping_list
    (GroceryManager.remove_from_shopping_list (lit "tj-1")
       (GroceryManager.add_to_shopping_list (lit "tj-1") 4
          Sample.fresh).2)
  = shopping_list Sample.fresh.
Proof.
  apply (add_then_remove (lit "tj-1") 4 Sample.fresh). constructor.
Defined.

(** X4. [remove_from_cart] of the interface trims the id. A blank id, or
    a trimmed id without cart entry, gives a message and leaves the manager
    unchanged. Otherwise the first entry with the trimmed id leaves the
    cart and the message names it; the other entries keep their order. On
    a cart with distinct ids this is the cart that
    [remove_from_shopping_list] of the manager gives for the trimmed id. *)
Theorem remove_from_cart_first_match :
  ∀ (i : str) (st : state),
    (strip i = [] → App.remove_from_cart i st = (App.PleaseSelectItem, st))
    ∧ (strip i ≠ [] →
       Forall (λ e, entry_id e ≠ strip i) (shopping_list st) →
       App.remove_from_cart i st = (App.NotInShoppingList, st))
    ∧ (strip i ≠ [] →
       ∀ l1 e l2,
         shopping_list st = l1 ++ e :: l2 → entry_id e = strip i →
         Forall (λ e, entry_id e ≠ strip i) l1 →
         App.remove_from_cart i st
         = (App.RemovedFromList (item_name (entry_item e)),
            set_shopping_list (l1 ++ l2) st)
         ∧ (unique_ids (shopping_list st) →
            shopping_list (App.remove_from_cart i st).2
            = shopping_list
                (GroceryManager.remove_from_shopping_list (strip i) st))).
Proof.
  intros i st.
  assert (Hblank : strip i ≠ [] →
    bool_decide (i = []) || bool_decide (strip i = []) = false).
  { intros Hi. rewrite (bool_decide_eq_false_2 (strip i = [])) by exact Hi.
    rewrite bool_decide_eq_false_2; [reflexivity|].
    intros ->. apply Hi. reflexivity. }
  split; [|split].
  - intros Hi. unfold App.remove_from_cart.
    rewrite (bool_decide_eq_true_2 (strip i = [])) by exact Hi.
    rewrite orb_true_r. reflexivity.
  - intros Hi Hl. unfold App.remove_from_cart. rewrite (Hblank Hi).
    apply pop_first_None in Hl. rewrite Hl. reflexivity.
  - intros Hi l1 e l2 Hcart He Hl1.
    assert (Hcall : App.remove_from_cart i st
                    = (App.RemovedFromList (item_name (entry_item e)),
                       set_shopping_list (l1 ++ l2) st)).
    { unfold App.remove_from_cart. rewrite (Hblank Hi).
      destruct (pop_first (strip i) (shopping_list st)) as [[e0 l']|] eqn:E.
      - apply pop_first_Some in E as (k1 & k2 & Hk & -> & He0 & Hk1).
        rewrite Hcart in Hk.
        assert (Hsame : l1 = k1 ∧ e = e0 ∧ l2 = k2).
        { clear -Hk He He0 Hl1 Hk1. revert k1 Hk Hk1.
          induction l1 as [|y l1 IH]; intros [|z k1] Hk Hk1; simpl in Hk.
          - injection Hk as -> ->. auto.
          - injection Hk as -> _. apply Forall_cons in Hk1 as [Hz _].
            contradiction.
          - injection Hk as -> _. apply Forall_cons in Hl1 as [Hy _].
            contradiction.
          - injection Hk as -> Hk.
            apply Forall_cons in Hl1 as [_ Hl1].
            apply Forall_cons in Hk1 as [_ Hk1].
            destruct (IH Hl1 k1 Hk Hk1) as (-> & -> & ->). auto. }
        destruct Hsame as (-> & -> & ->). reflexivity.
      - apply pop_first_None in E. rewrite Hcart in E.
        apply Forall_app in E as [_ [Hne _]%Forall_cons]. contradiction. }
    split; [exact Hcall|].
    intros Hnd. rewrite Hcall. cbn [snd shopping_list set_shopping_list].
    unfold GroceryManager.remove_from_shopping_list.
    cbn [shopping_list GroceryManager._schedule_save set_save_pending
         set_shopping_list].
    rewrite Hcart in *. rewrite filter_app, filter_cons.
    destruct (decide (entry_id e ≠ strip i)); [contradiction|].
    rewrite (Forall_filter_all (λ e, entry_id e ≠ strip i) l1 Hl1).
    rewrite (Forall_filter_all (λ e, entry_id e ≠ strip i) l2);
      [reflexivity|].
    exact (unique_ids_after _ _ _ _ He Hnd).
Qed.

Lemma remove_from_cart_first_match_witness :
  App.remove_from_cart (lit " sw-1 ") Sample.stocked
  = (App.RemovedFromList (lit "Chicken Breast"),
     set_shopping_list ([Entry Sample.bananas 2] ++ [Entry Sample.avocados 3])
       Sample.stocked)
  ∧ App.remove_from_cart (lit "  ") Sample.stocked
    = (App.PleaseSelectItem, Sample.stocked)
  ∧ App.remove_from_cart (lit "co-1") Sample.stocked
    = (App.NotInShoppingList, Sample.stocked).
Proof.
  destruct (remove_from_cart_first_match (lit " sw-1 ") Sample.stocked)
    as (_ & _ & Hfound).
  destruct (remove_from_cart_first_match (lit "  ") Sample.stocked)
    as (Hblank & _).
  destruct (remove_from_cart_first_match (lit "co-1") Sample.stocked)
    as (_ & Habsent & _).
  split; [|split].
  - apply (Hfound ltac:(vm_compute; discriminate) [Entry Sample.bananas 2]
             (Entry Sample.chicken 1) [Entry Sample.avocados 3]).
    + reflexivity.
    + reflexivity.
    + repeat constructor; vm_compute; discriminate.
  - apply Hblank. reflexivity.
  - apply Habsent.
    + vm_compute. discriminate.
    + repeat constructor; vm_compute; discriminate.
Defined.

(** ** Distinct ids, call by call *)

(** X5. A cart with at most one entry per id keeps that property through
    every call of the manager and of the cart helpers except
    [restore_from_archive], through [remove_from_cart], and through the
    restore of an archive labelled with a store name when the archived ids
    are distinct and shared only with cart entries of that store. *)
Theorem calls_keep_unique_ids :
  ∀ st : state,
    unique_ids (shopping_list st) →
    (∀ c, (∀ k, c ≠ RestoreFromArchive k) →
          unique_ids (shopping_list (run c st)))
    ∧ (∀ i, unique_ids (shopping_list (App.remove_from_cart i st).2))
    ∧ (∀ k a,
         0 ≤ k → archived_lists st !! Z.to_nat k = Some a →
         truthy (arch_store a) = true →
         unique_ids (arch_items a) →
         (∀ e e', e ∈ shopping_list st → e' ∈ arch_items a →
                  entry_id e = entry_id e' → entry_store e = arch_store a) →
         unique_ids
           (shopping_list (GroceryManager.restore_from_archive k st).2)).
Proof.
  intros st Hst. split; [|split].
  - intros c Hc. apply run_keeps_unique_ids; assumption.
  - intros i. unfold App.remove_from_cart.
    destruct (_ || _); [exact Hst|].
    destruct (pop_first (strip i) (shopping_list st)) as [[e l']|] eqn:E;
      [|exact Hst].
    apply pop_first_Some in E as (l1 & l2 & Hl & -> & _).
    cbn [snd shopping_list set_shopping_list].
    unfold unique_ids in *. rewrite Hl in Hst.
    eapply sublist_NoDup; [exact Hst|].
    apply fmap_sublist, sublist_app; [reflexivity|].
    apply sublist_cons, reflexivity.
  - intros k a Hk Ha Hstore Hitems Hshared.
    apply (restore_keeps_unique_ids k a); assumption.
Qed.

Lemma calls_keep_unique_ids_witness :
  unique_ids
    (shopping_list (run (AddToShoppingList (lit "tj-1") 3) Sample.stocked))
  ∧ unique_ids
      (shopping_list (App.remove_from_cart (lit "sw-1") Sample.stocked).2).
Proof.
  assert (Hst : unique_ids (shopping_list Sample.stocked)).
  { unfold unique_ids. apply (bool_decide_unpack _). vm_compute. exact I. }
  destruct (calls_keep_unique_ids Sample.stocked Hst) as (Hrun & Hrm & _).
  split; [apply Hrun; discriminate | apply Hrm].
Defined.

(** ** Deleting one archive *)

(** X6. [delete_archive(k)] leaves the manager in the state that
    [delete_multiple_archives([k])] leaves it in, and succeeds when it
    does. Inside the ring it removes the archive at position [k] and no
    other: the archives before and after it follow each other in their
    order. Outside the ring it fails and the manager is unchanged. *)
Theorem delete_archive_single :
  ∀ (k : Z) (st : state),
    let r := GroceryManager.delete_archive k st in
    r.2 = (GroceryManager.delete_multiple_archives [k] st).2
    ∧ r.1.1 = (GroceryManager.delete_multiple_archives [k] st).1.1
    ∧ (k < 0 ∨ Z.of_nat (length (archived_lists st)) ≤ k →
       r = ((false, InvalidArchiveIndex), st))
    ∧ (∀ a, 0 ≤ k → archived_lists st !! Z.to_nat k = Some a →
            r.1.1 = true
            ∧ archived_lists st
              = take (Z.to_nat k) (archived_lists st)
                ++ a :: drop (S (Z.to_nat k)) (archived_lists st)
            ∧ archived_lists r.2
              = take (Z.to_nat k) (archived_lists st)
                ++ drop (S (Z.to_nat k)) (archived_lists st)
            ∧ shopping_list r.2 = shopping_list st).
Proof.
  intros k st r. unfold r, GroceryManager.delete_archive,
    GroceryManager.delete_multiple_archives, delete_loop.
  change (sorted_reverse [k]) with [k]. cbn [fold_left].
  unfold delete_step. cbn [fst snd].
  destruct (k <? 0) eqn:E1.
  - apply Z.ltb_lt in E1.
    replace (0 <=? k) with false by (symmetry; apply Z.leb_gt; lia).
    cbn. split; [reflexivity|]. split; [reflexivity|].
    split; [reflexivity|]. intros a Hk. lia.
  - apply Z.ltb_ge in E1.
    replace (0 <=? k) with true by (symmetry; apply Z.leb_le; lia).
    destruct (Z.of_nat (length (archived_lists st)) <=? k) eqn:E2.
    + apply Z.leb_le in E2.
      replace (k <? Z.of_nat (length (archived_lists st))) with false
        by (symmetry; apply Z.ltb_ge; lia).
      cbn. split; [reflexivity|]. split; [reflexivity|].
      split; [reflexivity|]. intros a _ Ha.
      apply lookup_lt_Some in Ha. lia.
    + apply Z.leb_gt in E2.
      replace (k <? Z.of_nat (length (archived_lists st))) with true
        by (symmetry; apply Z.ltb_lt; lia).
      destruct (lookup_lt_is_Some_2 (archived_lists st) (Z.to_nat k))
        as [a Ha]; [lia|].
      rewrite Ha. cbn. split; [reflexivity|]. split; [reflexivity|].
      split; [intros; lia|].
      intros a' _ [= <-]. split; [reflexivity|].
      pose proof (take_drop_middle _ _ _ Ha) as Hsplit.
      split; [symmetry; exact Hsplit|]. split; [|reflexivity].
      rewrite <- Hsplit at 1.
      replace (Z.to_nat k)
        with (length (take (Z.to_nat k) (archived_lists st))) at 1
        by (rewrite length_take; lia).
      apply delete_middle.
Qed.

Lemma delete_archive_single_witness :
  archived_lists (GroceryManager.delete_archive 1 Sample.three_trips).2
  = [Sample.trip Sample.trader_joes Sample.avocados "2025-01-03";
     Sample.trip Sample.trader_joes Sample.bananas "2025-01-01"]
  ∧ GroceryManager.delete_archive (-1) Sample.three_trips
    = ((false, InvalidArchiveIndex), Sample.three_trips).
Proof.
  destruct (delete_archive_single 1 Sample.three_trips)
    as (_ & _ & _ & Hin).
  destruct (delete_archive_single (-1) Sample.three_trips)
    as (_ & _ & Hout & _).
  split.
  - destruct (Hin (Sample.trip Sample.safeway Sample.chicken "2025-01-02"))
      as (_ & _ & Hring & _); [lia | reflexivity | exact Hring].
  - apply Hout. left. lia.
Defined.

(** ** Archiving one store *)

(** X7. For a store name, [archive_and_restart] fails exactly when
    [get_store_item_count] is 0, and then the manager is unchanged. When it
    succeeds, the archive at index 0 is labelled with the store, holds the
    store's entries, counts as many items as [get_store_item_count] gave
    and records the total that [get_store_total] showed; afterwards the
    store has no cart entry, its total is 0 and no save is pending. *)
Theorem archive_and_restart_store_count :
  ∀ (s : str) (now : timestamp) (st : state),
    s ≠ [] →
    let r := GroceryManager.archive_and_restart (Some s) now st in
    let count := GroceryManager.get_store_item_count (Some s) st in
    (count = 0%nat → r = ((false, NoItemsToArchive (Some s)), st))
    ∧ (count ≠ 0%nat →
       r.1.1 = true
       ∧ ∃ a, archived_lists r.2 !! 0%nat = Some a
              ∧ arch_store a = Some s
              ∧ arch_items a = entries_of s (shopping_list st)
              ∧ arch_item_count a = count
              ∧ arch_total_cost a = App.get_store_total s st
              ∧ GroceryManager.get_store_item_count (Some s) r.2 = 0%nat
              ∧ App.get_store_total s r.2 = 0%Q
              ∧ save_pending r.2 = false).
Proof.
  intros s now st Hs r count.
  unfold r, count, GroceryManager.archive_and_restart,
    GroceryManager.get_store_item_count, App.get_store_total, entries_of.
  unfold GroceryManager.archive_entry, GroceryManager.store_items.
  rewrite (truthy_Some s Hs), (str_or_Some s _ Hs).
  destruct (filter (λ e, entry_store e = Some s) (shopping_list st))
    as [|e sel] eqn:E.
  - split; [reflexivity|]. intros Hne. destruct (Hne eq_refl).
  - split; [discriminate|]. intros _. split; [reflexivity|].
    eexists. split; [apply rotate_out_head|]. cbn.
    split; [reflexivity|]. split; [reflexivity|]. split; [reflexivity|].
    split; [reflexivity|].
    rewrite (filter_filter_none (λ e, entry_store e = Some s)
               (λ e, entry_store e ≠ Some s)) by auto.
    repeat split.
Qed.

Lemma archive_and_restart_store_count_witness :
  let r := GroceryManager.archive_and_restart (Some Sample.trader_joes)
             Sample.now Sample.stocked in
  r.1.1 = true
  ∧ GroceryManager.get_store_item_count (Some Sample.trader_joes) r.2 = 0%nat
  ∧ GroceryManager.archive_and_restart (Some Sample.trader_joes)
      Sample.now Sample.fresh
    = ((false, NoItemsToArchive (Some Sample.trader_joes)), Sample.fresh).
Proof.
  assert (Hs : Sample.trader_joes ≠ []) by (vm_compute; discriminate).
  destruct (archive_and_restart_store_count Sample.trader_joes Sample.now
              Sample.stocked Hs) as (_ & Hsome).
  destruct (archive_and_restart_store_count Sample.trader_joes Sample.now
              Sample.fresh Hs) as (Hnone & _).
  destruct Hsome as (Hok & a & _ & _ & _ & _ & _ & Hcount & _).
  - vm_compute. discriminate.
  - split; [exact Hok|]. split; [exact Hcount|]. apply Hnone. reflexivity.
Defined.

(** ** Budget levels *)


Lemma Qlt_bool_reflect a b :
  (Qlt_bool a b = true ∧ (a < b)%Q) ∨ (Qlt_bool a b = false ∧ (b <= a)%Q).
Proof.
  destruct (Qlt_le_dec a b) as [Hlt|Hle].
  - left. split; [apply Qlt_bool_iff|]; exact Hlt.
  - right. split; [apply Qlt_bool_false|]; exact Hle.
Qed.




(** ** The cart follows the catalog *)

Section FindAfterUpdate.

Variables (i : str) (f : item → item).
Hypothesis f_id : ∀ y, item_id (f y) = item_id y.

Lemma find_item_update_first j l l' :
  update_first_item i f l = Some l' →
  find_item j l'
  = if decide (j = i) then f <$> find_item j l else find_item j l.
Proof.
  revert l'. induction l as [|y l IH]; intros l'; simpl; [discriminate|].
  destruct (decide (item_id y = i)) as [Hy|Hy].
  - intros [= <-]. simpl. rewrite f_id.
    destruct (decide (item_id y = j)) as [Hj|Hj].
    + rewrite decide_True by congruence. reflexivity.
    + rewrite decide_False by congruence. reflexivity.
  - destruct (update_first_item i f l) as [r|]; simpl; [|discriminate].
    intros [= <-]. simpl.
    destruct (decide (item_id y = j)) as [Hj|Hj].
    + rewrite decide_False by congruence. reflexivity.
    + apply IH. reflexivity.
Qed.

Lemma find_item_update_first_None l :
  update_first_item i f l = None → find_item i l = None.
Proof.
  intros Hnone. pose proof (update_first_item_find i f l) as Hfind.
  destruct (find_item i l); [|reflexivity].
  destruct Hfind as (l1 & l2 & _ & _ & Hsome). congruence.
Qed.

Lemma find_in_stores_update_first j d d' :
  update_first_in_stores i f d = Some d' →
  find_in_stores j d'
  = if decide (j = i) then f <$> find_in_stores j d else find_in_stores j d.
Proof.
  revert d'. induction d as [|[k l] d IH]; intros d'; simpl; [discriminate|].
  destruct (update_first_item i f l) as [l'|] eqn:E.
  - intros [= <-]. simpl. rewrite (find_item_update_first j l l' E).
    destruct (decide (j = i)) as [->|Hj].
    + pose proof (update_first_item_find i f l) as Hfind.
      destruct (find_item i l) as [x|]; [reflexivity|]. congruence.
    + reflexivity.
  - destruct (update_first_in_stores i f d) as [r|]; simpl; [|discriminate].
    intros [= <-]. simpl.
    pose proof (find_item_update_first_None l E) as Hnone.
    destruct (decide (j = i)) as [->|Hj].
    + rewrite Hnone. apply IH. reflexivity.
    + destruct (find_item j l); [reflexivity|]. apply IH. reflexivity.
Qed.

End FindAfterUpdate.

Lemma patch_id name category price unit y :
  item_id (patch name category price unit y) = item_id y.
Proof. reflexivity. Qed.

Lemma Forall_filter_keep {A} (P Q : A → Prop) `{∀ x, Decision (Q x)}
    (l : list A) :
  Forall P l → Forall P (filter Q l).
Proof.
  rewrite !Forall_forall. intros Hl x [_ Hx]%list_elem_of_filter. auto.
Qed.

(** X9. When every cart entry is the copy of the catalog item that its id
    finds, it is so again after every call of the manager and of the cart
    helpers other than [restore_from_archive]: additions copy the catalog
    item, quantity changes keep the copy, and [update_catalog_item] edits
    the catalog item and its copies alike. *)
Theorem calls_keep_cart_synced :
  ∀ (c : call) (st : state),
    (∀ k, c ≠ RestoreFromArchive k) → synced st → synced (run c st).
Proof.
  intros c st Hc Hst. unfold synced in *.
  assert (Hadd : ∀ i q x,
    find_in_stores i (stores st) = Some x →
    Forall (λ e, find_in_stores (entry_id e) (stores st)
                 = Some (entry_item e))
      (match update_first i (add_quantity q) (shopping_list st) with
       | Some (_, l') => l'
       | None => shopping_list st ++ [Entry x q]
       end)).
  { intros i q x Hx.
    destruct (update_first i (add_quantity q) (shopping_list st))
      as [[e0 l']|] eqn:E.
    - apply update_first_Some in E as (l1 & l2 & Hl & -> & _).
      rewrite Hl in Hst. apply Forall_app in Hst as [H1 [H0 H2]%Forall_cons].
      apply Forall_app. split; [exact H1|]. constructor; assumption.
    - apply Forall_app. split; [exact Hst|]. constructor; [|constructor].
      unfold entry_id. cbn [entry_item].
      rewrite (find_in_stores_id _ _ _ Hx). exact Hx. }
  assert (Hset : ∀ i q,
    Forall (λ e, find_in_stores (entry_id e) (stores st)
                 = Some (entry_item e))
      (match update_first i (set_quantity q) (shopping_list st) with
       | Some (_, l') => l'
       | None => shopping_list st
       end)).
  { intros i q.
    destruct (update_first i (set_quantity q) (shopping_list st))
      as [[e0 l']|] eqn:E; [|exact Hst].
    apply update_first_Some in E as (l1 & l2 & Hl & -> & _).
    rewrite Hl in Hst. apply Forall_app in Hst as [H1 [H0 H2]%Forall_cons].
    apply Forall_app. split; [exact H1|]. constructor; assumption. }
  destruct c as [i q | i | i q | amount | | i n cg p u | s now | k | k | ks
                | i q | i q]; simpl.
  - unfold GroceryManager.add_to_shopping_list.
    destruct (find_in_stores i (stores st)) as [x|] eqn:Ex; [|exact Hst].
    specialize (Hadd i q x Ex).
    destruct (update_first _ _ _) as [[e0 l']|]; exact Hadd.
  - apply Forall_filter_keep, Hst.
  - unfold GroceryManager.update_quantity. specialize (Hset i q).
    destruct (update_first _ _ _) as [[e0 l']|]; exact Hset.
  - exact Hst.
  - constructor.
  - unfold GroceryManager.update_catalog_item.
    destruct (update_first_in_stores i (patch n cg p u) (stores st))
      as [d'|] eqn:E; [|exact Hst].
    cbn [snd stores shopping_list GroceryManager._schedule_save
         set_save_pending set_shopping_list set_stores].
    apply Forall_fmap. eapply Forall_impl; [exact Hst|].
    intros e He. unfold compose. cbn beta in *.
    pose proof (find_in_stores_update_first i (patch n cg p u)
                  (patch_id n cg p u) (entry_id e) _ _ E) as Hfind.
    unfold patch_entry. destruct (decide (entry_id e = i)) as [Hi|Hi].
    + change (find_in_stores (entry_id e) d'
              = Some (patch n cg p u (entry_item e))).
      rewrite Hfind, He. reflexivity.
    + rewrite Hfind. exact He.
  - unfold GroceryManager.archive_and_restart.
    destruct (GroceryManager.store_items _ _); [exact Hst|].
    cbn [snd stores shopping_list GroceryManager.force_save
         set_save_pending set_shopping_list set_archived_lists].
    destruct (truthy s); [apply Forall_filter_keep, Hst | constructor].
  - destruct (Hc k eq_refl).
  - unfold GroceryManager.delete_archive.
    repeat case_match; exact Hst.
  - unfold GroceryManager.delete_multiple_archives.
    repeat case_match; exact Hst.
  - unfold App.add_to_cart.
    destruct (find_in_stores i (stores st)) as [x|] eqn:Ex; [|exact Hst].
    specialize (Hadd i q x Ex).
    destruct (update_first _ _ _) as [[e0 l']|]; exact Hadd.
  - unfold App.update_item_quantity.
    destruct (_ || _); [exact Hst|]. destruct (_ <? _); [exact Hst|].
    specialize (Hset (strip i) q).
    destruct (update_first _ _ _) as [[e0 l']|]; exact Hset.
Qed.

Lemma calls_keep_cart_synced_witness :
  synced
    (run (UpdateCatalogItem (lit "tj-2") None None (Some (2 # 1)) None)
       Sample.stocked).
Proof.
  apply calls_keep_cart_synced.
  - discriminate.
  - repeat constructor.
Defined.

(** ** The catalog of a store *)

Lemma stores_append_None k x d :
  stores_append k x d = None ↔ k ∉ d.*1.
Proof.
  induction d as [|[k' v] d IH]; simpl.
  - split; [intros _; apply not_elem_of_nil | reflexivity].
  - destruct (decide (k' = k)) as [->|Hk].
    + split; [discriminate|]. intros Hnot. destruct Hnot. left.
    + destruct (stores_append k x d) as [r|]; simpl.
      * split; [discriminate|]. intros Hnot.
        assert (Hd : k ∉ d.*1) by (intros Hin; apply Hnot; right; exact Hin).
        apply IH in Hd. discriminate.
      * split; [|reflexivity]. intros _ [->|Hin]%elem_of_cons;
          [contradiction|]. revert Hin. apply IH. reflexivity.
Qed.

Lemma stores_append_Some k x d d' :
  stores_append k x d = Some d' →
  d'.*1 = d.*1
  ∧ ∀ k0, stores_get k0 d'
          = if decide (k0 = k) then stores_get k0 d ++ [x]
            else stores_get k0 d.
Proof.
  revert d'. induction d as [|[k' v] d IH]; intros d'; simpl; [discriminate|].
  destruct (decide (k' = k)) as [->|Hk].
  - intros [= <-]. split; [reflexivity|]. intros k0. simpl.
    destruct (decide (k = k0)) as [->|Hk0].
    + rewrite decide_True by reflexivity. reflexivity.
    + rewrite decide_False by congruence. reflexivity.
  - destruct (stores_append k x d) as [r|]; simpl; [|discriminate].
    intros [= <-]. destruct (IH r eq_refl) as [Hkeys Hget].
    split; [rewrite !fmap_cons, Hkeys; reflexivity|]. intros k0. simpl.
    destruct (decide (k' = k0)) as [->|Hk0].
    + rewrite decide_False by congruence. reflexivity.
    + apply Hget.
Qed.

Lemma existsb_false_Forall {A} (p : A → bool) (l : list A) :
  existsb p l = false ↔ Forall (λ x, p x = false) l.
Proof.
  induction l as [|x l IH]; simpl.
  - split; [constructor | reflexivity].
  - rewrite orb_false_iff, Forall_cons, IH. reflexivity.
Qed.

Section Catalog.

Context `{PyBuiltins}.

(** The id that [add_catalog_item] gives to a new item of the store. *)
Let prefix_of (store_name : str) : str :=
  remove_char 32%N (lower (take 2 store_name)).

Let new_id_of (store_name : str) (st : state) : str :=
  prefix_of store_name ++ lit "-"
  ++ str_of_int
       (App.max_id (prefix_of store_name)
          (stores_get store_name (stores st)) + 1).

(** X10. When the fields are valid and no item of the store has the name,
    [add_catalog_item] raises [KeyError] for a store that is not a key of
    the catalog, the manager unchanged; for a store of the catalog it
    appends one item to the end of that store's list, with the normalized
    name and category, the given price, the trimmed unit and the store as
    its fields, schedules a save, and leaves the other stores, the order of
    the stores, the cart and the ring unchanged. *)
Theorem add_catalog_item_appends :
  ∀ (store_name name category : str) (price : Q) (unit : str) (st : state),
    name ≠ [] → category ≠ [] → (0 < price)%Q →
    Forall (λ x, lower (item_name x)
                 ≠ lower (App.normalize_text (strip name)))
      (stores_get store_name (stores st)) →
    let new_item :=
      Item (new_id_of store_name st) (App.normalize_text (strip name))
           (App.normalize_text (strip category)) (Some store_name) price
           (strip unit) None in
    (store_name ∉ (stores st).*1 →
     App.add_catalog_item store_name name category price unit st
     = Raises (KeyError store_name))
    ∧ (store_name ∈ (stores st).*1 →
       ∃ st',
         App.add_catalog_item store_name name category price unit st
         = Returns (AddedToCatalog (App.normalize_text (strip name))
                      store_name, st')
         ∧ stores_get store_name (stores st')
           = stores_get store_name (stores st) ++ [new_item]
         ∧ (∀ k, k ≠ store_name →
                 stores_get k (stores st') = stores_get k (stores st))
         ∧ (stores st').*1 = (stores st).*1
         ∧ shopping_list st' = shopping_list st
         ∧ archived_lists st' = archived_lists st
         ∧ budget st' = budget st
         ∧ save_pending st' = true).
Proof.
  intros store_name name category price unit st Hn Hc Hp Hnew new_item.
  rewrite (add_catalog_item_valid _ _ _ _ _ _ Hn Hc Hp). cbv zeta.
  assert (Hdup : existsb
    (λ x, bool_decide (lower (item_name x)
                       = lower (App.normalize_text (strip name))))
    (stores_get store_name (stores st)) = false).
  { apply existsb_false_Forall. eapply Forall_impl; [exact Hnew|].
    intros x Hx. apply bool_decide_eq_false_2, Hx. }
  rewrite Hdup. fold (prefix_of store_name). fold (new_id_of store_name st).
  fold new_item. split.
  - intros Hkey. apply (stores_append_None _ new_item) in Hkey.
    rewrite Hkey. reflexivity.
  - intros Hkey.
    destruct (stores_append store_name new_item (stores st)) as [d'|] eqn:E.
    + destruct (stores_append_Some _ _ _ _ E) as [Hkeys Hget].
      eexists. split; [reflexivity|]. cbn. split; [|split; [|split]].
      * rewrite Hget, decide_True by reflexivity. reflexivity.
      * intros k Hk. rewrite Hget, decide_False by exact Hk. reflexivity.
      * exact Hkeys.
      * repeat split.
    + apply stores_append_None in E. contradiction.
Qed.

Lemma startswith_app (p s : str) : startswith (p ++ s) p = true.
Proof.
  induction p as [|c p IH]; [destruct s; reflexivity|]. simpl.
  rewrite N.eqb_refl. exact IH.
Qed.

Lemma split_without_sep (sep : char) (s : str) :
  sep ∉ s → split sep s = [s].
Proof.
  induction s as [|c s IH]; intros Hs; [reflexivity|]. simpl.
  destruct (c =? sep)%N eqn:E.
  - apply N.eqb_eq in E. subst c. destruct Hs. left.
  - rewrite IH; [reflexivity|]. intros Hin. apply Hs. right. exact Hin.
Qed.

Lemma split_at_first_sep (sep : char) (p s : str) :
  sep ∉ p → split sep (p ++ sep :: s) = p :: split sep s.
Proof.
  induction p as [|c p IH]; intros Hp; simpl.
  - rewrite N.eqb_refl. reflexivity.
  - destruct (c =? sep)%N eqn:E.
    + apply N.eqb_eq in E. subst c. destruct Hp. left.
    + rewrite IH; [reflexivity|]. intros Hin. apply Hp. right. exact Hin.
Qed.

Lemma max_id_from prefix l : ∀ acc,
  acc ≤ fold_left
          (λ acc x,
             match App.id_number prefix (item_id x) with
             | Some num => Z.max acc num
             | None => acc
             end) l acc
  ∧ ∀ x num, x ∈ l → App.id_number prefix (item_id x) = Some num →
      num ≤ fold_left
              (λ acc x,
                 match App.id_number prefix (item_id x) with
                 | Some num => Z.max acc num
                 | None => acc
                 end) l acc.
Proof.
  induction l as [|y l IH]; intros acc; simpl.
  - split; [lia|]. intros x num []%elem_of_nil.
  - set (acc' := match App.id_number prefix (item_id y) with
                 | Some num => Z.max acc num
                 | None => acc
                 end).
    destruct (IH acc') as [Hacc Hmem]. split.
    + etransitivity; [|exact Hacc]. unfold acc'.
      destruct (App.id_number prefix (item_id y)); lia.
    + intros x num [->|Hin]%elem_of_cons Hnum.
      * etransitivity; [|exact Hacc]. unfold acc'. rewrite Hnum. lia.
      * exact (Hmem x num Hin Hnum).
Qed.

(** X11. When the id prefix of the store has no "-", and the number that
    follows it is written without "-" and read back by [int] as itself,
    the id that [add_catalog_item] builds is the id of no item of the
    store; a successful call appends an item with that id, so that
    distinct ids in the store stay distinct. *)
Theorem add_catalog_item_fresh_id :
  ∀ (store_name : str) (st : state),
    let items := stores_get store_name (stores st) in
    let n := App.max_id (prefix_of store_name) items + 1 in
    45%N ∉ prefix_of store_name →
    45%N ∉ str_of_int n →
    int_of_str (str_of_int n) = Some n →
    0 < n
    ∧ (new_id_of store_name st ∉ item_id <$> items)
    ∧ (∀ name category price unit shown st',
         App.add_catalog_item store_name name category price unit st
         = Returns (AddedToCatalog shown store_name, st') →
         ∃ x, stores_get store_name (stores st') = items ++ [x]
              ∧ item_id x = new_id_of store_name st
              ∧ (NoDup (item_id <$> items) →
                 NoDup (item_id <$> stores_get store_name (stores st')))).
Proof.
  intros store_name st items n Hprefix Hdigits Hread.
  destruct (max_id_from (prefix_of store_name) items 0) as [Hpos Hmax].
  fold (App.max_id (prefix_of store_name) items) in Hpos, Hmax.
  assert (Hfresh : new_id_of store_name st ∉ (item_id <$> items)).
  { intros (x & Hx & Hin)%list_elem_of_fmap.
    assert (Hnum : App.id_number (prefix_of store_name) (item_id x) = Some n).
    { unfold App.id_number. rewrite <- Hx. unfold new_id_of. fold items n.
      rewrite startswith_app.
      change (lit "-" ++ str_of_int n) with (45%N :: str_of_int n).
      rewrite (split_at_first_sep _ _ _ Hprefix).
      rewrite (split_without_sep _ _ Hdigits). exact Hread. }
    specialize (Hmax x n Hin Hnum). unfold n in Hmax. lia. }
  split; [unfold n; lia|]. split; [exact Hfresh|].
  intros name category price unit shown st' Hadd.
  unfold App.add_catalog_item in Hadd.
  destruct (_ || _) in Hadd; [discriminate|].
  destruct (existsb _ _) in Hadd; [discriminate|].
  destruct (stores_append _ _ _) as [d'|] eqn:E in Hadd; [|discriminate].
  injection Hadd as _ <-.
  match type of E with
  | stores_append _ ?y _ = _ => set (new_item := y) in *
  end.
  destruct (stores_append_Some _ _ _ _ E) as [_ Hget].
  specialize (Hget store_name). rewrite decide_True in Hget by reflexivity.
  exists new_item.
  cbn [stores GroceryManager._schedule_save set_save_pending set_stores].
  split; [exact Hget|]. split; [reflexivity|].
  intros Hnd. rewrite Hget, fmap_app. apply NoDup_app.
  split; [exact Hnd|]. split; [|apply NoDup_singleton].
  intros j Hj [->|[]%elem_of_nil]%elem_of_cons.
  apply Hfresh. exact Hj.
Qed.

End Catalog.

Lemma add_catalog_item_appends_witness :
  (∃ st',
     @App.add_catalog_item Sample.builtins Sample.safeway (lit " Tofu ")
       (lit "Produce") (3 # 1) (lit "block ") Sample.fresh
     = Returns (AddedToCatalog (lit "Tofu") Sample.safeway, st')
     ∧ stores_get Sample.safeway (stores st')
       = [Sample.chicken;
          Item (lit "sa-1") (lit "Tofu") (lit "Produce")
               (Some Sample.safeway) (3 # 1) (lit "block") None])
  ∧ @App.add_catalog_item Sample.builtins (lit "Costco") (lit "Tofu")
      (lit "Produce") (3 # 1) (lit "block") Sample.fresh
    = Raises (KeyError (lit "Costco")).
Proof.
  split.
  - destruct (@add_catalog_item_appends Sample.builtins Sample.safeway
                (lit " Tofu ") (lit "Produce") (3 # 1) (lit "block ")
                Sample.fresh) as (_ & Hadd).
    + discriminate.
    + discriminate.
    + reflexivity.
    + repeat constructor; vm_compute; discriminate.
    + destruct Hadd as (st' & Hcall & Hget & _).
      * right. left.
      * exists st'. split; [exact Hcall | exact Hget].
  - apply (@add_catalog_item_appends Sample.builtins (lit "Costco")
             (lit "Tofu") (lit "Produce") (3 # 1) (lit "block")
             Sample.fresh).
    + discriminate.
    + discriminate.
    + reflexivity.
    + constructor.
    + vm_compute. intros Hin.
      repeat (apply elem_of_cons in Hin as [Hin|Hin]; [discriminate|]).
      apply elem_of_nil in Hin. exact Hin.
Defined.

Lemma add_catalog_item_fresh_id_witness :
  (lit "tr-1" ∉ item_id <$> stores_get Sample.trader_joes
                             (stores Sample.fresh))
  ∧ ∀ st',
      @App.add_catalog_item Sample.builtins Sample.trader_joes (lit "Tofu")
        (lit "Produce") (3 # 1) (lit "block") Sample.fresh
      = Returns (AddedToCatalog (lit "Tofu") Sample.trader_joes, st') →
      NoDup (item_id <$> stores_get Sample.trader_joes (stores st')).
Proof.
  destruct (@add_catalog_item_fresh_id Sample.builtins Sample.trader_joes
              Sample.fresh) as (_ & Hfresh & Hadd).
  - vm_compute. intros Hin.
    repeat (apply elem_of_cons in Hin as [Hin|Hin]; [discriminate|]).
    apply elem_of_nil in Hin. exact Hin.
  - vm_compute. intros Hin.
    repeat (apply elem_of_cons in Hin as [Hin|Hin]; [discriminate|]).
    apply elem_of_nil in Hin. exact Hin.
  - reflexivity.
  - split; [exact Hfresh|]. intros st' Hcall.
    destruct (Hadd _ _ _ _ _ _ Hcall) as (x & _ & _ & Hnd).
    apply Hnd. apply (bool_decide_unpack _). vm_compute. exact I.
Defined.

(** ** Deleting a catalog item *)

Lemma pop_first_item_None i l :
  pop_first_item i l = None ↔ Forall (λ x, item_id x ≠ i) l.
Proof.
  induction l as [|y l IH]; simpl.
  - split; [constructor | reflexivity].
  - destruct (decide (item_id y = i)) as [Hy|Hy].
    + split; [discriminate|]. intros [Hne _]%Forall_cons. contradiction.
    + destruct (pop_first_item i l) as [[x0 r]|]; simpl.
      * split; [discriminate|]. intros [_ Hl]%Forall_cons.
        apply IH in Hl. discriminate.
      * split; [|reflexivity]. intros _. constructor; [exact Hy|].
        apply IH. reflexivity.
Qed.

Lemma pop_first_item_middle i l1 x l2 :
  Forall (λ y, item_id y ≠ i) l1 → item_id x = i →
  pop_first_item i (l1 ++ x :: l2) = Some (x, l1 ++ l2).
Proof.
  intros Hl1 Hx. induction Hl1 as [|y l1 Hy _ IH]; simpl.
  - rewrite decide_True by exact Hx. reflexivity.
  - rewrite decide_False by exact Hy. rewrite IH. reflexivity.
Qed.

Lemma stores_get_nonempty k d : stores_get k d ≠ [] → k ∈ d.*1.
Proof.
  induction d as [|[k' v] d IH]; simpl; [contradiction|].
  destruct (decide (k' = k)) as [->|Hk]; [left|].
  intros Hne. right. exact (IH Hne).
Qed.

Lemma stores_get_replace_same k v d :
  k ∈ d.*1 → stores_get k (stores_replace k v d) = v.
Proof.
  induction d as [|[k' v'] d IH]; intros Hin.
  - apply elem_of_nil in Hin. destruct Hin.
  - cbn [stores_replace]. destruct (decide (k' = k)) as [->|Hk].
    + cbn [stores_get]. rewrite decide_True by reflexivity. reflexivity.
    + cbn [stores_get]. rewrite decide_False by exact Hk.
      rewrite fmap_cons in Hin.
      apply elem_of_cons in Hin as [Heq|Hin]; [|exact (IH Hin)].
      destruct Hk. symmetry. exact Heq.
Qed.

Lemma stores_get_replace_other k v d k0 :
  k0 ≠ k → stores_get k0 (stores_replace k v d) = stores_get k0 d.
Proof.
  intros Hk0. induction d as [|[k' v'] d IH]; [reflexivity|].
  cbn [stores_replace]. destruct (decide (k' = k)) as [->|Hk].
  - cbn [stores_get]. rewrite !decide_False by congruence. reflexivity.
  - cbn [stores_get]. rewrite IH. reflexivity.
Qed.

Lemma stores_replace_same k d : stores_replace k (stores_get k d) d = d.
Proof.
  induction d as [|[k' v] d IH]; simpl; [reflexivity|].
  destruct (decide (k' = k)); [reflexivity|]. rewrite IH. reflexivity.
Qed.

Lemma stores_replace_append k x v d d' :
  stores_append k x d = Some d' →
  stores_replace k v d' = stores_replace k v d.
Proof.
  revert d'. induction d as [|[k' v'] d IH]; intros d'; simpl; [discriminate|].
  destruct (decide (k' = k)) as [->|Hk].
  - intros [= <-]. simpl. rewrite decide_True by reflexivity. reflexivity.
  - destruct (stores_append k x d) as [r|]; simpl; [|discriminate].
    intros [= <-]. simpl. rewrite decide_False by exact Hk.
    rewrite (IH r eq_refl). reflexivity.
Qed.

(** X12. [delete_catalog_item] trims the id. A blank id, or a trimmed id
    that no item of the store has (as for a store that is not in the
    catalog), gives a message and leaves the manager unchanged. Otherwise
    the first item of the store with the trimmed id leaves the store's
    list, the other items of the store keep their order, every other store
    is unchanged and a save is scheduled; the cart and the ring are
    untouched, so a cart entry of the deleted item stays in the cart. *)
Theorem delete_catalog_item_first_match :
  ∀ (store_name i : str) (st : state),
    (strip i = [] →
     App.delete_catalog_item store_name i st
     = (App.PleaseSelectItemToDelete, st))
    ∧ (strip i ≠ [] →
       Forall (λ x, item_id x ≠ strip i)
         (stores_get store_name (stores st)) →
       App.delete_catalog_item store_name i st
       = (App.NotInCatalog store_name, st))
    ∧ (strip i ≠ [] →
       ∀ l1 x l2,
         stores_get store_name (stores st) = l1 ++ x :: l2 →
         item_id x = strip i → Forall (λ y, item_id y ≠ strip i) l1 →
         ∃ st',
           App.delete_catalog_item store_name i st
           = (App.RemovedFromCatalog (item_name x) store_name, st')
           ∧ stores_get store_name (stores st') = l1 ++ l2
           ∧ (∀ k, k ≠ store_name →
                   stores_get k (stores st') = stores_get k (stores st))
           ∧ shopping_list st' = shopping_list st
           ∧ archived_lists st' = archived_lists st
           ∧ save_pending st' = true).
Proof.
  intros store_name i st.
  assert (Hblank : strip i ≠ [] →
    bool_decide (i = []) || bool_decide (strip i = []) = false).
  { intros Hi. rewrite (bool_decide_eq_false_2 (strip i = [])) by exact Hi.
    rewrite bool_decide_eq_false_2; [reflexivity|].
    intros ->. apply Hi. reflexivity. }
  split; [|split].
  - intros Hi. unfold App.delete_catalog_item.
    rewrite (bool_decide_eq_true_2 (strip i = [])) by exact Hi.
    rewrite orb_true_r. reflexivity.
  - intros Hi Hl. unfold App.delete_catalog_item. rewrite (Hblank Hi).
    apply pop_first_item_None in Hl. rewrite Hl. reflexivity.
  - intros Hi l1 x l2 Hitems Hx Hl1. unfold App.delete_catalog_item.
    rewrite (Hblank Hi), Hitems, (pop_first_item_middle _ _ _ _ Hl1 Hx).
    eexists. split; [reflexivity|]. cbn.
    assert (Hkey : store_name ∈ (stores st).*1).
    { apply stores_get_nonempty. rewrite Hitems. destruct l1; discriminate. }
    split; [|split].
    + apply stores_get_replace_same, Hkey.
    + intros k Hk. apply stores_get_replace_other, Hk.
    + repeat split.
Qed.

Lemma delete_catalog_item_first_match_witness :
  (∃ st',
     App.delete_catalog_item Sample.trader_joes (lit " tj-1 ") Sample.stocked
     = (App.RemovedFromCatalog (lit "Organic Bananas") Sample.trader_joes,
        st')
     ∧ stores_get Sample.trader_joes (stores st') = [] ++ [Sample.avocados]
     ∧ shopping_list st' = shopping_list Sample.stocked)
  ∧ App.delete_catalog_item (lit "Costco") (lit "co-1") Sample.stocked
    = (App.NotInCatalog (lit "Costco"), Sample.stocked).
Proof.
  destruct (delete_catalog_item_first_match Sample.trader_joes
              (lit " tj-1 ") Sample.stocked) as (_ & _ & Hfound).
  destruct (delete_catalog_item_first_match (lit "Costco") (lit "co-1")
              Sample.stocked) as (_ & Habsent & _).
  split.
  - destruct (Hfound ltac:(vm_compute; discriminate) [] Sample.bananas
                [Sample.avocados]) as (st' & Hcall & Hget & _ & Hcart & _).
    + reflexivity.
    + reflexivity.
    + constructor.
    + exists st'. split; [exact Hcall|]. split; [exact Hget | exact Hcart].
  - apply Habsent; [vm_compute; discriminate | constructor].
Defined.

Section CatalogRoundTrip.

Context `{PyBuiltins}.

(** X13. Deleting the item that [add_catalog_item] has just added, by its
    id, gives back the catalog as it was before the addition, when that id
    is the id of no earlier item of the store and is unchanged by
    trimming. *)
Theorem add_then_delete_catalog_item :
  ∀ (store_name name category : str) (price : Q) (unit : str)
    (st st' : state) (shown : str) (x : item),
    App.add_catalog_item store_name name category price unit st
    = Returns (AddedToCatalog shown store_name, st') →
    last (stores_get store_name (stores st')) = Some x →
    item_id x ∉ (item_id <$> stores_get store_name (stores st)) →
    item_id x ≠ [] → strip (item_id x) = item_id x →
    App.delete_catalog_item store_name (item_id x) st'
    = (App.RemovedFromCatalog (item_name x) store_name,
       GroceryManager._schedule_save (set_stores (stores st) st')).
Proof.
  intros store_name name category price unit st st' shown x
    Hadd Hlast Hfresh Hid Hstrip.
  unfold App.add_catalog_item in Hadd.
  destruct (_ || _) in Hadd; [discriminate|].
  destruct (existsb _ _) in Hadd; [discriminate|].
  destruct (stores_append _ _ _) as [d'|] eqn:E in Hadd; [|discriminate].
  injection Hadd as _ <-.
  match type of E with
  | stores_append _ ?y _ = _ => set (new_item := y) in *
  end.
  destruct (stores_append_Some _ _ _ _ E) as [_ Hget].
  cbn [stores GroceryManager._schedule_save set_save_pending set_stores]
    in Hlast |- *.
  specialize (Hget store_name). rewrite decide_True in Hget by reflexivity.
  rewrite Hget, last_snoc in Hlast. apply (inj Some) in Hlast. subst x.
  unfold App.delete_catalog_item. rewrite Hstrip.
  rewrite (bool_decide_eq_false_2 (item_id new_item = [])) by exact Hid.
  cbn [orb stores GroceryManager._schedule_save set_save_pending set_stores].
  rewrite Hget.
  rewrite (pop_first_item_middle (item_id new_item)
             (stores_get store_name (stores st)) new_item []).
  - rewrite app_nil_r, (stores_replace_append _ _ _ _ _ E).
    rewrite stores_replace_same. reflexivity.
  - apply Forall_forall. intros y Hy Heq. apply Hfresh.
    apply list_elem_of_fmap. exists y. split; [congruence | exact Hy].
  - reflexivity.
Qed.

End CatalogRoundTrip.

Lemma add_then_delete_catalog_item_witness :
  ∃ st',
    @App.add_catalog_item Sample.builtins Sample.safeway (lit "Tofu")
      (lit "Produce") (3 # 1) (lit "block") Sample.fresh
    = Returns (AddedToCatalog (lit "Tofu") Sample.safeway, st')
    ∧ stores (App.delete_catalog_item Sample.safeway (lit "sa-1") st').2
      = stores Sample.fresh.
Proof.
  eexists. split; [reflexivity|].
  rewrite (@add_then_delete_catalog_item Sample.builtins Sample.safeway
             (lit "Tofu") (lit "Produce") (3 # 1) (lit "block") Sample.fresh
             _ (lit "Tofu")
             (Item (lit "sa-1") (lit "Tofu") (lit "Produce")
                (Some Sample.safeway) (3 # 1) (lit "block") None)).
  - reflexivity.
  - reflexivity.
  - reflexivity.
  - vm_compute. intros Hin.
    repeat (apply elem_of_cons in Hin as [Hin|Hin]; [discriminate|]).
    apply elem_of_nil in Hin. exact Hin.
  - discriminate.
  - reflexivity.
Defined.

(** ** The categories of a store *)

Lemma str_leb_refl a : str_leb a a = true.
Proof.
  induction a as [|c a IH]; [reflexivity|]. simpl.
  rewrite N.ltb_irrefl. exact IH.
Qed.

Lemma str_leb_total a : ∀ b, str_leb a b = true ∨ str_leb b a = true.
Proof.
  induction a as [|c a IH]; intros [|d b]; simpl; auto.
  destruct (N.ltb_spec c d), (N.ltb_spec d c); auto; try lia.
Qed.

Lemma str_leb_trans a : ∀ b c,
  str_leb a b = true → str_leb b c = true → str_leb a c = true.
Proof.
  induction a as [|x a IH]; intros [|y b] [|z c]; simpl; auto;
    try discriminate.
  destruct (N.ltb_spec x y), (N.ltb_spec y x), (N.ltb_spec y z),
    (N.ltb_spec z y), (N.ltb_spec x z), (N.ltb_spec z x);
    auto; try discriminate; try lia.
  apply IH.
Qed.

Lemma str_leb_antisym a : ∀ b,
  str_leb a b = true → str_leb b a = true → a = b.
Proof.
  induction a as [|x a IH]; intros [|y b]; simpl; auto; try discriminate.
  destruct (N.ltb_spec x y), (N.ltb_spec y x); try discriminate; try lia.
  intros Hab Hba. assert (x = y) by lia. subst y.
  rewrite (IH b Hab Hba). reflexivity.
Qed.

#[local] Instance str_le_transitive : Transitive str_le.
Proof. intros a b c. apply str_leb_trans. Qed.

#[local] Instance str_le_total : Total str_le.
Proof. intros a b. apply str_leb_total. Qed.

(** X14. [get_categories] starts with "All Categories"; what follows is
    sorted by code points in strictly ascending order, so without
    repetition, and holds exactly "Miscellaneous" and the categories of the
    items of the store. For a store without items, or not in the catalog,
    the answer is "All Categories", "Miscellaneous". *)
Theorem get_categories_sorted :
  ∀ (store_name : str) (st : state),
    ∃ sorted,
      App.get_categories store_name st = lit "All Categories" :: sorted
      ∧ (∀ c, c ∈ sorted ↔
              c = lit "Miscellaneous"
              ∨ ∃ x, x ∈ stores_get store_name (stores st)
                     ∧ item_category x = c)
      ∧ StronglySorted (λ a b, str_le a b ∧ a ≠ b) sorted
      ∧ (stores_get store_name (stores st) = [] →
         sorted = [lit "Miscellaneous"]).
Proof.
  intros store_name st. eexists. split; [reflexivity|].
  set (items := stores_get store_name (stores st)).
  set (cats := remove_dups ((item_category <$> items)
                            ++ [lit "Miscellaneous"])).
  assert (Hperm : merge_sort str_le cats ≡ₚ cats)
    by apply merge_sort_Permutation.
  split; [|split].
  - intros c. rewrite Hperm. unfold cats.
    rewrite elem_of_remove_dups, elem_of_app, list_elem_of_fmap,
      list_elem_of_singleton.
    split.
    + intros [(x & -> & Hx) | ->]; [right; exists x; auto | left; reflexivity].
    + intros [-> | (x & Hx & <-)]; [right; reflexivity | left; exists x; auto].
  - assert (Hnd : NoDup (merge_sort str_le cats)).
    { rewrite Hperm. apply NoDup_remove_dups. }
    assert (Hsorted : StronglySorted str_le (merge_sort str_le cats))
      by (apply StronglySorted_merge_sort; apply _).
    revert Hnd Hsorted. generalize (merge_sort str_le cats).
    intros l Hnd Hsorted. induction Hsorted as [|a l Hl IH Ha].
    + constructor.
    + apply NoDup_cons in Hnd as [Hnotin Hnd]. constructor; [auto|].
      rewrite Forall_forall in Ha |- *. intros b Hb.
      split; [exact (Ha b Hb)|]. intros ->. contradiction.
  - intros Hempty. unfold cats. fold items in Hempty. rewrite Hempty.
    reflexivity.
Qed.

Lemma get_categories_sorted_witness :
  App.get_categories (lit "Costco") Sample.fresh
  = [lit "All Categories"; lit "Miscellaneous"].
Proof.
  destruct (get_categories_sorted (lit "Costco") Sample.fresh)
    as (sorted & Hcall & _ & _ & Hempty).
  rewrite Hcall, (Hempty eq_refl). reflexivity.
Defined.

(** ** The summary of the archives *)

Lemma counts_get_add n m q d :
  counts_get n (counts_add m q d)
  = if decide (n = m) then Some (default 0 (counts_get n d) + q)
    else counts_get n d.
Proof.
  induction d as [|[k c] d IH]; cbn [counts_add counts_get].
  - destruct (decide (m = n)) as [->|Hm].
    + rewrite decide_True by reflexivity. reflexivity.
    + rewrite decide_False by congruence. reflexivity.
  - destruct (decide (k = m)) as [->|Hk]; cbn [counts_get].
    + destruct (decide (m = n)) as [->|Hm].
      * rewrite decide_True by reflexivity. reflexivity.
      * rewrite decide_False by congruence. reflexivity.
    + destruct (decide (k = n)) as [->|Hn].
      * rewrite decide_False by congruence. reflexivity.
      * exact IH.
Qed.

Lemma counts_add_keys m q d :
  (counts_add m q d).*1 = d.*1
  ∨ ((m ∉ d.*1) ∧ (counts_add m q d).*1 = d.*1 ++ [m]).
Proof.
  induction d as [|[k c] d IH]; cbn [counts_add].
  - right. split; [apply not_elem_of_nil | reflexivity].
  - destruct (decide (k = m)) as [->|Hk]; [left; reflexivity|].
    rewrite !fmap_cons. cbn [fst].
    destruct IH as [->|[Hnotin ->]]; [left; reflexivity|].
    right. split; [|reflexivity].
    intros [Heq|Hin]%elem_of_cons; [congruence | contradiction].
Qed.

Lemma counts_add_NoDup m q d : NoDup d.*1 → NoDup (counts_add m q d).*1.
Proof.
  intros Hd. destruct (counts_add_keys m q d) as [->|[Hnotin ->]]; [exact Hd|].
  apply NoDup_app. split; [exact Hd|]. split; [|apply NoDup_singleton].
  intros k Hk [->|[]%elem_of_nil]%elem_of_cons. contradiction.
Qed.

Lemma counts_get_elem n c d :
  NoDup d.*1 → (n, c) ∈ d → counts_get n d = Some c.
Proof.
  induction d as [|[k c'] d IH]; intros Hnd Hin.
  - apply elem_of_nil in Hin. destruct Hin.
  - rewrite fmap_cons in Hnd. apply NoDup_cons in Hnd as [Hk Hnd].
    cbn [counts_get]. apply elem_of_cons in Hin as [[= -> ->]|Hin].
    + rewrite decide_True by reflexivity. reflexivity.
    + destruct (decide (k = n)) as [->|Hn]; [|exact (IH Hnd Hin)].
      destruct Hk. apply list_elem_of_fmap. exists (n, c). auto.
Qed.

(** The dict of counts after the loops over the archived entries. *)
Lemma item_counts_fold es : ∀ d,
  NoDup d.*1 →
  let d' := fold_left
              (λ d e, counts_add (item_name (entry_item e)) (quantity e) d)
              es d in
  NoDup d'.*1
  ∧ (∀ n, default 0 (counts_get n d')
          = default 0 (counts_get n d) + quantity_of_name n es)
  ∧ (∀ n, n ∈ d'.*1 →
          n ∈ d.*1 ∨ ∃ e, e ∈ es ∧ item_name (entry_item e) = n).
Proof.
  induction es as [|e es IH]; intros d Hd; cbn [fold_left].
  - split; [exact Hd|]. split; [intros n; simpl; lia | auto].
  - destruct (IH _ (counts_add_NoDup (item_name (entry_item e))
                      (quantity e) d Hd)) as (Hnd & Hget & Hkeys).
    split; [exact Hnd|]. split.
    + intros n. rewrite Hget, counts_get_add. cbn [quantity_of_name foldr].
      fold (quantity_of_name n es).
      destruct (decide (n = item_name (entry_item e))) as [->|Hn].
      * rewrite decide_True by reflexivity. simpl. lia.
      * rewrite decide_False by congruence. reflexivity.
    + intros n Hn. destruct (Hkeys n Hn) as [Hin|(e' & He' & Hname)].
      * destruct (counts_add_keys (item_name (entry_item e)) (quantity e) d)
          as [E|[_ E]]; rewrite E in Hin; [left; exact Hin|].
        apply elem_of_app in Hin as [Hin|Hin]; [left; exact Hin|].
        apply list_elem_of_singleton in Hin. right. exists e.
        split; [left | symmetry; exact Hin].
      * right. exists e'. split; [right; exact He' | exact Hname].
Qed.

Lemma insert_desc_Permutation p l : insert_desc p l ≡ₚ p :: l.
Proof.
  induction l as [|p' l IH]; [reflexivity|]. cbn [insert_desc].
  destruct (p.2 <? p'.2); [|reflexivity].
  rewrite IH. apply Permutation_swap.
Qed.

Lemma sorted_by_count_Permutation l : sorted_by_count l ≡ₚ l.
Proof.
  induction l as [|p l IH]; [reflexivity|]. unfold sorted_by_count in *.
  cbn [foldr]. rewrite insert_desc_Permutation, IH. reflexivity.
Qed.

Lemma insert_desc_sorted p l :
  StronglySorted (λ a b : str * Z, b.2 ≤ a.2) l →
  StronglySorted (λ a b : str * Z, b.2 ≤ a.2) (insert_desc p l).
Proof.
  induction 1 as [|p' l Hl IH Hp']; cbn [insert_desc].
  - repeat constructor.
  - destruct (p.2 <? p'.2) eqn:E.
    + apply Z.ltb_lt in E. constructor; [exact IH|].
      rewrite insert_desc_Permutation. constructor; [lia | exact Hp'].
    + apply Z.ltb_ge in E. constructor; [constructor; assumption|].
      constructor; [exact E|].
      eapply Forall_impl; [exact Hp'|]. intros x Hx. cbn in *. lia.
Qed.

Lemma sorted_by_count_sorted l :
  StronglySorted (λ a b : str * Z, b.2 ≤ a.2) (sorted_by_count l).
Proof.
  induction l as [|p l IH]; [constructor|].
  apply insert_desc_sorted, IH.
Qed.

Lemma StronglySorted_take {A} (R : relation A) (l : list A) : ∀ n,
  StronglySorted R l → StronglySorted R (take n l).
Proof.
  intros n Hl. revert n.
  induction Hl as [|a l Hl IH Ha]; intros [|n]; simpl; try constructor.
  - apply IH.
  - apply Forall_take, Ha.
Qed.

Lemma fold_left_add_sum l : ∀ a, fold_left Nat.add l a = (a + sum_list l)%nat.
Proof.
  induction l as [|x l IH]; intros a; simpl; [lia|]. rewrite IH. lia.
Qed.

Lemma Q_of_length_pos {A} (a : A) (l : list A) :
  (0 < inject_Z (Z.of_nat (length (a :: l))))%Q.
Proof.
  unfold Qlt, inject_Z. cbn [Qnum Qden length]. lia.
Qed.

(** X15. [get_archive_summary] returns [None] for an empty ring and never
    divides by zero. For a ring with archives it counts them, adds up
    their item counts, and lists at most 10 rows of name and quantity:
    the names are distinct names of archived entries, each with the sum of
    the quantities archived under that name, and the rows are in
    descending order of quantity. When at most 10 names were archived,
    every archived name has its row. *)
Theorem get_archive_summary_top_items :
  ∀ st : state,
    let ring := archived_lists st in
    let entries := GroceryManager.archived_entries ring in
    (ring = [] → GroceryManager.get_archive_summary st = Some None)
    ∧ (ring ≠ [] →
       ∃ s,
         GroceryManager.get_archive_summary st = Some (Some s)
         ∧ GroceryManager.total_archives s = length ring
         ∧ GroceryManager.total_items s
           = sum_list (arch_item_count <$> ring)
         ∧ (length (GroceryManager.top_items s) ≤ 10)%nat
         ∧ StronglySorted (λ a b : str * Z, b.2 ≤ a.2)
             (GroceryManager.top_items s)
         ∧ NoDup (GroceryManager.top_items s).*1
         ∧ (∀ n c, (n, c) ∈ GroceryManager.top_items s →
                   c = quantity_of_name n entries
                   ∧ ∃ e, e ∈ entries ∧ item_name (entry_item e) = n)
         ∧ ((length (GroceryManager.item_counts ring) ≤ 10)%nat →
            ∀ e, e ∈ entries →
                 (item_name (entry_item e),
                  quantity_of_name (item_name (entry_item e)) entries)
                 ∈ GroceryManager.top_items s)).
Proof.
  intros st ring entries. subst entries ring.
  unfold GroceryManager.get_archive_summary.
  destruct (archived_lists st) as [|a0 ring0].
  { split; [reflexivity | intros Hne; contradiction]. }
  split; [discriminate|]. intros _. cbv beta iota zeta.
  rewrite truediv_positive by apply Q_of_length_pos.
  cbn [mbind option_bind].
  set (ring := a0 :: ring0).
  set (entries := GroceryManager.archived_entries ring).
  eexists. split; [reflexivity|].
  cbn [GroceryManager.total_archives GroceryManager.total_items
       GroceryManager.top_items].
  - set (rows := GroceryManager.item_counts ring).
    assert (Hfold : NoDup rows.*1
      ∧ (∀ n, default 0 (counts_get n rows)
              = default 0 (counts_get n []) + quantity_of_name n entries)
      ∧ (∀ n, n ∈ rows.*1 →
              n ∈ ([] : list (str * Z)).*1
              ∨ ∃ e, e ∈ entries ∧ item_name (entry_item e) = n))
      by exact (item_counts_fold entries [] (NoDup_nil_2)).
    destruct Hfold as (Hnd & Hget & Hkeys).
    assert (Hperm : sorted_by_count rows ≡ₚ rows)
      by apply sorted_by_count_Permutation.
    assert (Hrow : ∀ n c, (n, c) ∈ rows →
      c = quantity_of_name n entries
      ∧ ∃ e, e ∈ entries ∧ item_name (entry_item e) = n).
    { intros n c Hin. split.
      - pose proof (counts_get_elem n c rows Hnd Hin) as Hc.
        specialize (Hget n). rewrite Hc in Hget. simpl in Hget. lia.
      - destruct (Hkeys n) as [Hnil|He]; [|apply elem_of_nil in Hnil;
                                            destruct Hnil | exact He].
        apply list_elem_of_fmap. exists (n, c). auto. }
    split; [reflexivity|].
    split; [rewrite fold_left_add_sum; reflexivity|].
    split; [rewrite length_take; lia|].
    split; [apply StronglySorted_take, sorted_by_count_sorted|].
    split; [|split].
    + eapply sublist_NoDup; [|apply fmap_sublist, sublist_take].
      rewrite Hperm. exact Hnd.
    + intros n c Hin. apply Hrow. rewrite <- Hperm.
      apply elem_of_take in Hin as (i & Hi & _).
      apply list_elem_of_lookup. exists i. exact Hi.
    + intros Hlen e He.
      rewrite take_ge by (rewrite Hperm; exact Hlen). rewrite Hperm.
      set (n := item_name (entry_item e)).
      assert (Hin : n ∈ rows.*1).
      { clear -He. unfold rows, GroceryManager.item_counts. fold entries.
        assert (Hgen : ∀ es d, (n ∈ d.*1 ∨ e ∈ es) →
          n ∈ (fold_left
                 (λ d e, counts_add (item_name (entry_item e))
                           (quantity e) d) es d).*1).
        { induction es as [|e' es IH]; intros d [Hd|Hes]; cbn [fold_left].
          - exact Hd.
          - apply elem_of_nil in Hes. destruct Hes.
          - apply IH. left.
            destruct (counts_add_keys (item_name (entry_item e'))
                        (quantity e') d) as [->|[_ ->]];
              [exact Hd | apply elem_of_app; left; exact Hd].
          - apply elem_of_cons in Hes as [<-|Hes]; [|apply IH; auto].
            apply IH. left. fold n.
            destruct (counts_add_keys n (quantity e) d) as [E|[_ E]].
            + rewrite E. clear -E.
              induction d as [|[k c] d IH]; cbn [counts_add] in E.
              * discriminate.
              * destruct (decide (k = n)) as [->|Hk]; [left|].
                rewrite !fmap_cons in E. injection E as E.
                right. exact (IH E).
            + rewrite E. apply elem_of_app. right. left. }
        apply Hgen. right. exact He. }
      apply list_elem_of_fmap in Hin as ([n' c] & Hn & Hin). cbn in Hn.
      subst n'. destruct (Hrow n c Hin) as [-> _]. exact Hin.
Qed.

Lemma get_archive_summary_top_items_witness :
  ∃ s,
    GroceryManager.get_archive_summary Sample.full_ring = Some (Some s)
    ∧ GroceryManager.total_archives s = 6%nat
    ∧ (lit "Organic Bananas", 6) ∈ GroceryManager.top_items s.
Proof.
  destruct (get_archive_summary_top_items Sample.full_ring) as (_ & Hsome).
  destruct Hsome as (s & Hcall & Hcount & _ & _ & _ & _ & _ & Hall).
  - vm_compute. discriminate.
  - exists s. split; [exact Hcall|]. split; [exact Hcount|].
    apply (Hall ltac:(vm_compute; lia) (Entry Sample.bananas 1)).
    vm_compute. left.
Defined.

(** ** The status of a store budget *)

(** X16. [get_store_status] returns for every amount and budget: a budget
    of zero gives the empty status without a division, and any other
    budget, negative ones included, is divided by. For a budget other than
    zero the status is "over budget", by the excess, exactly when the
    amount spent is above the budget. *)
Theorem get_store_status_total :
  ∀ spent budget : Q,
    ∃ status,
      App.get_store_status spent budget = Some status
      ∧ ((budget == 0)%Q → status = App.NoStatus)
      ∧ (¬ (budget == 0)%Q →
         status ≠ App.NoStatus
         ∧ (status = App.OverStoreBudget (spent - budget)
            ↔ (budget < spent)%Q)).
Proof.
  intros spent budget. unfold App.get_store_status, truediv.
  destruct (Qeq_bool budget 0) eqn:E.
  - apply Qeq_bool_iff in E. exists App.NoStatus.
    split; [reflexivity|]. split; [reflexivity|]. intros Hne. contradiction.
  - assert (Hne : ¬ (budget == 0)%Q).
    { intros Hz. apply Qeq_bool_iff in Hz. congruence. }
    cbn [mbind option_bind]. eexists. split; [reflexivity|].
    split; [intros Hz; contradiction|]. intros _.
    destruct (Qlt_bool_reflect budget spent) as [[-> Hlt]|[-> Hle]].
    + split; [discriminate|]. split; [intros _; exact Hlt | reflexivity].
    + split.
      * repeat destruct (Qlt_bool _ _); discriminate.
      * split; [|intros Hlt; destruct (Qlt_not_le _ _ Hlt Hle)].
        repeat destruct (Qlt_bool _ _); discriminate.
Qed.

Lemma get_store_status_total_witness :
  ∃ status,
    App.get_store_status (1144 # 100) (-5 # 1) = Some status
    ∧ status = App.OverStoreBudget ((1144 # 100) - (-5 # 1)).
Proof.
  destruct (get_store_status_total (1144 # 100) (-5 # 1))
    as (status & Hcall & _ & Hnonzero).
  exists status. split; [exact Hcall|].
  destruct Hnonzero as (_ & Hover); [discriminate|].
  apply Hover. reflexivity.
Defined.

(** ** Archiving all stores *)

(** X17. With [None] or the empty string for the store, on a cart that is
    not empty, [archive_and_restart] succeeds: the archive at index 0 is
    labelled "All Stores", holds the whole cart and records the total of
    [get_total_cost]; the cart is empty afterwards and its total cost is 0.
    A restore of index 0 made right after it gives the cart back, entry by
    entry. On an empty cart the call fails and the manager is unchanged. *)
Theorem archive_all_stores :
  ∀ (store_name : option str) (now : timestamp) (st : state),
    truthy store_name = false →
    let r := GroceryManager.archive_and_restart store_name now st in
    (shopping_list st = [] → r = ((false, NoItemsToArchive store_name), st))
    ∧ (shopping_list st ≠ [] →
       r.1.1 = true
       ∧ (∃ a, archived_lists r.2 !! 0%nat = Some a
               ∧ arch_store a = Some (lit "All Stores")
               ∧ arch_items a = shopping_list st
               ∧ arch_item_count a = length (shopping_list st)
               ∧ arch_total_cost a = GroceryManager.get_total_cost st)
       ∧ shopping_list r.2 = []
       ∧ GroceryManager.get_total_cost r.2 = 0%Q
       ∧ shopping_list (GroceryManager.restore_from_archive 0 r.2).2
         = shopping_list st).
Proof.
  intros store_name now st Hfalsy r.
  assert (Hlabel : str_or store_name (lit "All Stores") = lit "All Stores").
  { destruct store_name as [[|c s]|]; try reflexivity. discriminate. }
  split.
  - intros Hempty. unfold r, GroceryManager.archive_and_restart,
      GroceryManager.store_items. rewrite Hfalsy, Hempty. reflexivity.
  - intros Hne.
    pose proof (archive_all_then_restore store_name now st Hfalsy Hne)
      as Hback. fold r in Hback.
    unfold r, GroceryManager.archive_and_restart, GroceryManager.store_items
      in *. rewrite Hfalsy in *.
    destruct (shopping_list st) as [|e l] eqn:E; [contradiction|].
    split; [reflexivity|]. split; [|split; [reflexivity|]].
    + eexists. split; [apply rotate_out_head|].
      unfold GroceryManager.archive_entry, GroceryManager.store_items,
        GroceryManager.get_total_cost.
      rewrite Hfalsy, Hlabel, E. cbn. repeat split.
    + split; [reflexivity | exact Hback].
Qed.

Lemma archive_all_stores_witness :
  let r := GroceryManager.archive_and_restart None Sample.now
             Sample.stocked in
  shopping_list r.2 = []
  ∧ shopping_list (GroceryManager.restore_from_archive 0 r.2).2
    = shopping_list Sample.stocked.
Proof.
  destruct (archive_all_stores None Sample.now Sample.stocked eq_refl)
    as (_ & Hsome).
  destruct Hsome as (_ & _ & Hcart & _ & Hback); [discriminate|].
  split; [exact Hcart | exact Hback].
Defined.
